(** * The "supply" sample chaincode and its benchmark driver

    A shallow embedding of
    [packages/caliper-samples/src/contract/fabric/supply/go/supply.go]
    (the Go chaincode, followed in the same file by the JavaScript load
    generator that invokes it), and the properties of its invocation surface.

    Conventions of the embedding:
    - a Go [string] is a Rocq [string] (a sequence of 8-bit characters), a Go
      [[]byte] is a [list Byte.byte]; the conversions [[]byte(s)] and
      [string(b)] are written out;
    - a Go pair [(value, err)] is a [result]; a nil slice is [None];
    - the world state is a finite map from keys to values, threaded through
      the handlers together with the trace of the state accesses they make;
    - [fmt.Println] / [fmt.Printf] only write to the peer's log and are
      omitted. *)

From Stdlib Require Import ZArith NArith Ascii String List Lia.
From Stdlib Require Import Strings.Byte DecimalString.
From Stdlib Require DecimalPos DecimalN.
From stdpp Require Import base strings gmap list.

Local Open Scope stdpp_scope.

(** ** Go values *)

Definition bytes : Type := list Byte.byte.

(** [[]byte(s)] and [string(b)]. *)
Definition bytes_of_string (s : string) : bytes := String.list_byte_of_string s.
Definition string_of_bytes (b : bytes) : string := String.string_of_list_byte b.

(** The text of a Go [error] value ([err.Error()]). *)
Definition error : Type := string.

(** A Go result pair [(value, err)]: [Ok v] is [(v, nil)]. *)
Inductive result (A : Type) : Type :=
| Ok (value : A)
| Err (err : error).
Arguments Ok {A} value.
Arguments Err {A} err.

(** Go string literals contain double quotes; they are written here with an
    apostrophe in place of each double quote and converted by [lit]. *)
Fixpoint lit (s : string) : string :=
  match s with
  | EmptyString => EmptyString
  | String c s' =>
      String (if Ascii.eqb c "039"%char then "034"%char else c) (lit s')
  end.

(** [args[i]]; every use below is guarded by the handler's length test. *)
Definition index (args : list string) (i : nat) : string := nth i args "".

(** ** package strings *)

Module strings.

Definition isASCII (s : string) : bool :=
  forallb (fun c => (Ascii.N_of_ascii c <? 128)%N) (String.list_ascii_of_string s).

Definition lowerByte (c : ascii) : ascii :=
  let n := Ascii.N_of_ascii c in
  if ((65 <=? n) && (n <=? 90))%N then Ascii.ascii_of_N (n + 32) else c.

Fixpoint lowerASCII (s : string) : string :=
  match s with
  | EmptyString => EmptyString
  | String c s' => String (lowerByte c) (lowerASCII s')
  end.

End strings.

(** ** package unicode/utf8 *)

Module utf8.

Definition MaxRune : N := 0x10FFFF.

Definition between (lo hi b : N) : bool := ((lo <=? b) && (b <=? hi))%N.

(** a continuation byte, with its six payload bits *)
Definition cont (b : N) : bool := between 0x80 0xBF b.
Definition low6 (b : N) : N := N.land b 0x3F.

(** The runes of a byte string, [None] when it is not valid UTF-8
    (what [utf8.ValidString] tests and [for _, r := range s] iterates). *)
Fixpoint DecodeRunes (l : list N) : option (list N) :=
  match l with
  | [] => Some []
  | b0 :: t0 =>
    if (b0 <? 0x80)%N then cons b0 <$> DecodeRunes t0
    else
    match t0 with
    | [] => None
    | b1 :: t1 =>
      if between 0xC2 0xDF b0 then
        if cont b1
        then cons (N.lor (N.shiftl (N.land b0 0x1F) 6) (low6 b1)) <$> DecodeRunes t1
        else None
      else
      match t1 with
      | [] => None
      | b2 :: t2 =>
        if between 0xE0 0xEF b0 then
          if between (if (b0 =? 0xE0)%N then 0xA0 else 0x80)
                     (if (b0 =? 0xED)%N then 0x9F else 0xBF) b1 && cont b2
          then cons (N.lor (N.shiftl (N.land b0 0x0F) 12)
                       (N.lor (N.shiftl (low6 b1) 6) (low6 b2)))
                 <$> DecodeRunes t2
          else None
        else
        match t2 with
        | [] => None
        | b3 :: t3 =>
          if between 0xF0 0xF4 b0 then
            if between (if (b0 =? 0xF0)%N then 0x90 else 0x80)
                       (if (b0 =? 0xF4)%N then 0x8F else 0xBF) b1
               && cont b2 && cont b3
            then cons (N.lor (N.shiftl (N.land b0 0x07) 18)
                         (N.lor (N.shiftl (low6 b1) 12)
                            (N.lor (N.shiftl (low6 b2) 6) (low6 b3))))
                   <$> DecodeRunes t3
            else None
          else None
        end
      end
    end
  end.

Definition runes (s : string) : option (list N) :=
  DecodeRunes (map Byte.to_N (String.list_byte_of_string s)).

Definition ValidString (s : string) : bool :=
  match runes s with Some _ => true | None => false end.

End utf8.

(** ** The Fabric peer protocol and chaincode shim

    [github.com/hyperledger/fabric/protos/peer] and
    [github.com/hyperledger/fabric/core/chaincode/shim] are dependencies of
    the chaincode, not part of it.  They are modelled after the library: a
    response is a status, a message and a payload; the stub gives access to
    a key-value world state, to the composite-key constructor, to a rich
    query engine and to the history of a key.  Every state access can fail,
    and which accesses fail is part of the stub. *)

Module pb.

Record Response : Type := mkResponse {
  Status : Z;
  Message : string;
  Payload : option bytes
}.

End pb.

Module shim.

Definition OK : Z := 200.
Definition ERROR : Z := 500.

Definition Success (payload : option bytes) : pb.Response :=
  {| pb.Status := OK; pb.Message := ""; pb.Payload := payload |}.

Definition Error (msg : string) : pb.Response :=
  {| pb.Status := ERROR; pb.Message := msg; pb.Payload := None |}.

(** One result of a rich query ([queryresult.KV]). *)
Record KV : Type := mkKV { Key : string; Value : bytes }.

(** One entry of the history of a key ([queryresult.KeyModification]). *)
Record KeyModification : Type := mkKeyModification {
  TxId : string;
  HistValue : bytes;
  Seconds : Z;         (* Timestamp.Seconds *)
  Nanos : Z;           (* Timestamp.Nanos *)
  IsDelete : bool
}.

(** An iterator is the list of what its successive [Next()] calls return. *)
Definition Iterator (A : Type) : Type := list (result A).

(** A state access made through the stub. *)
Inductive Access : Type :=
| ReadState (key : string)
| WriteState (key : string) (value : bytes)
| RichQuery (query : string)
| HistoryQuery (key : string).

(** The ledger as a transaction sees it: the world state and the accesses
    made so far. *)
Record Ledger : Type := mkLedger {
  WorldState : gmap string bytes;
  Trace : list Access
}.

Definition record_access (a : Access) (l : Ledger) : Ledger :=
  {| WorldState := WorldState l; Trace := Trace l ++ [a] |}.

(** Code that runs against the ledger. *)
Definition Tx (A : Type) : Type := Ledger -> A * Ledger.

Definition ret {A : Type} (a : A) : Tx A := fun l => (a, l).

Definition bind {A B : Type} (m : Tx A) (k : A -> Tx B) : Tx B :=
  fun l => let (a, l') := m l in k a l'.

(** [ChaincodeStubInterface]: the invocation being served, and the
    behaviour of the store behind it. *)
Record ChaincodeStub : Type := mkStub {
  Function : string;
  Parameters : list string;
  GetStateFails : string -> option error;
  PutStateFails : string -> bytes -> option error;
  QueryEngine : string -> gmap string bytes -> result (Iterator KV);
  HistoryDB : string -> result (Iterator KeyModification)
}.

Definition GetFunctionAndParameters (stub : ChaincodeStub) : string * list string :=
  (Function stub, Parameters stub).

(** [GetState] returns nil for a key that has no value. *)
Definition GetState (stub : ChaincodeStub) (key : string) : Tx (result (option bytes)) :=
  fun l =>
    (match GetStateFails stub key with
     | Some e => Err e
     | None => Ok (WorldState l !! key)
     end,
     record_access (ReadState key) l).

(** [PutState]; writing an empty value deletes the key. *)
Definition PutState (stub : ChaincodeStub) (key : string) (value : bytes) : Tx (option error) :=
  fun l =>
    match PutStateFails stub key value with
    | Some e => (Some e, record_access (WriteState key value) l)
    | None =>
        (None,
         {| WorldState := match value with
                          | [] => delete key (WorldState l)
                          | _ :: _ => <[key := value]> (WorldState l)
                          end;
            Trace := Trace l ++ [WriteState key value] |})
    end.

Definition GetQueryResult (stub : ChaincodeStub) (query : string) : Tx (result (Iterator KV)) :=
  fun l => (QueryEngine stub query (WorldState l), record_access (RichQuery query) l).

Definition GetHistoryForKey (stub : ChaincodeStub) (key : string)
  : Tx (result (Iterator KeyModification)) :=
  fun l => (HistoryDB stub key, record_access (HistoryQuery key) l).

(** Composite keys: the namespace byte 0x00, the object type, then every
    attribute, each followed by U+0000.  The object type and the
    attributes must be valid UTF-8 without U+0000 and U+10FFFF (the error
    texts are shortened: the library also prints the offending string and
    position). *)
Definition minUnicodeRuneValue : N := 0.
Definition maxUnicodeRuneValue : N := utf8.MaxRune.
Definition compositeKeyNamespace : string := String "000" "".

Definition validateCompositeKeyAttribute (str : string) : option error :=
  match utf8.runes str with
  | None => Some "not a valid utf8 string"
  | Some rs =>
      if existsb (fun r => (r =? minUnicodeRuneValue)%N || (r =? maxUnicodeRuneValue)%N) rs
      then Some "U+0000 and U+10FFFF are not allowed in the input attribute of a composite key"
      else None
  end.

Fixpoint appendAttributes (ck : string) (attributes : list string) : result string :=
  match attributes with
  | [] => Ok ck
  | att :: rest =>
      match validateCompositeKeyAttribute att with
      | Some e => Err e
      | None => appendAttributes (ck +:+ att +:+ String "000" "") rest
      end
  end.

Definition CreateCompositeKey (objectType : string) (attributes : list string) : result string :=
  match validateCompositeKeyAttribute objectType with
  | Some e => Err e
  | None => appendAttributes (compositeKeyNamespace +:+ objectType +:+ String "000" "") attributes
  end.

End shim.

Notation "'let*' x ':=' m 'in' k" := (shim.bind m (fun x => k))
  (at level 10, x name, m at level 100, k at level 200).

(** ** package strconv *)

Module strconv.

Definition FormatBool (b : bool) : string := if b then "true" else "false".

End strconv.

(** ** The product record *)

Record product : Type := mkProduct {
  ObjectType : string;   (* json:"docType" *)
  Puid : string;         (* json:"puid" *)
  Pname : string;        (* json:"pname" *)
  Ptype : string;        (* json:"ptype" *)
  Owner : string         (* json:"owner" *)
}.

(** [productToTransfer.Owner = newOwner] *)
Definition set_Owner (p : product) (newOwner : string) : product :=
  {| ObjectType := ObjectType p; Puid := Puid p; Pname := Pname p;
     Ptype := Ptype p; Owner := newOwner |}.

(** [product{}] *)
Definition zero_product : product := mkProduct "" "" "" "" "".

(** ** The parts of the Go standard library left abstract

    The chaincode calls into [strings], [encoding/json] and [time]; the
    Unicode case tables, the JSON string escaper, the JSON parser and the
    time formatter are taken as an interface. *)

Class GoRuntime : Type := {
  (** [strings.Map(unicode.ToLower, s)], used for strings that are not pure ASCII *)
  unicode_ToLower : string -> string;
  (** the JSON encoding of one Go string, quotes included *)
  json_encodeString : string -> string;
  (** [json.Unmarshal(data, &p)]: the record [p] updated from [data] *)
  json_Unmarshal : bytes -> product -> result product;
  (** [time.Unix(sec, nsec).String()] *)
  time_Unix_String : Z -> Z -> string
}.

Section Chaincode.

Context `{go : GoRuntime}.

(** [strings.ToLower]: pure ASCII strings are lowered byte by byte, any other
    string goes through the Unicode tables. *)
Definition ToLower (s : string) : string :=
  if strings.isASCII s then strings.lowerASCII s else unicode_ToLower s.

(** [json.Marshal(product)]: the struct tags fix the keys and their order;
    marshalling a struct of strings never fails. *)
Definition json_encodeProduct (p : product) : bytes :=
  bytes_of_string
    (lit "{'docType':" +:+ json_encodeString (ObjectType p) +:+
     lit ",'puid':" +:+ json_encodeString (Puid p) +:+
     lit ",'pname':" +:+ json_encodeString (Pname p) +:+
     lit ",'ptype':" +:+ json_encodeString (Ptype p) +:+
     lit ",'owner':" +:+ json_encodeString (Owner p) +:+ "}").

Definition json_Marshal (p : product) : result bytes := Ok (json_encodeProduct p).

(** *** initProduct - create a new product, store into chaincode state *)

Definition initProduct (stub : shim.ChaincodeStub) (args : list string) : shim.Tx pb.Response :=
  let err : option error := None in
  if negb (Nat.eqb (length args) 4) then
    shim.ret (shim.Error "Incorrect number of arguments. Expecting 4")
  (* ==== Input sanitation ==== *)
  else if Nat.leb (String.length (index args 0)) 0 then
    shim.ret (shim.Error "1st argument must be a non-empty string")
  else if Nat.leb (String.length (index args 1)) 0 then
    shim.ret (shim.Error "2nd argument must be a non-empty string")
  else if Nat.leb (String.length (index args 2)) 0 then
    shim.ret (shim.Error "3rd argument must be a non-empty string")
  else if Nat.leb (String.length (index args 3)) 0 then
    shim.ret (shim.Error "4th argument must be a non-empty string")
  else
  let productUID := index args 0 in
  let pname := ToLower (index args 1) in
  let ptype := ToLower (index args 2) in
  let owner := ToLower (index args 3) in
  match err with
  | Some _ => shim.ret (shim.Error "3rd argument must be a numeric string")
  | None =>
  (* ==== Check if product already exists ==== *)
  let* got := shim.GetState stub productUID in
  match got with
  | Err err => shim.ret (shim.Error ("Failed to get product: " +:+ err))
  | Ok (Some productAsBytes) =>
      shim.ret (shim.Error ("This product already exists: " +:+ productUID))
  | Ok None =>
  (* ==== Create product object and marshal to JSON ==== *)
  let objectType := "product" in
  let product := mkProduct objectType productUID pname ptype owner in
  match json_Marshal product with
  | Err err => shim.ret (shim.Error err)
  | Ok productJSONasBytes =>
  (* === Save product to state === *)
  let* err := shim.PutState stub productUID productJSONasBytes in
  match err with
  | Some err => shim.ret (shim.Error err)
  | None =>
  let indexName := "type~name" in
  match shim.CreateCompositeKey indexName [Ptype product; Pname product] with
  | Err err => shim.ret (shim.Error err)
  | Ok colorNameIndexKey =>
  let value := [x00] in
  (* the error returned by this PutState is dropped *)
  let* _ := shim.PutState stub colorNameIndexKey value in
  shim.ret (shim.Success None)
  end end end end end.

(** *** readProduct *)

Definition readProduct (stub : shim.ChaincodeStub) (args : list string) : shim.Tx pb.Response :=
  if negb (Nat.eqb (length args) 1) then
    shim.ret (shim.Error
      "Incorrect number of arguments. Expecting product ID of the product to query")
  else
  let Puid := index args 0 in
  let* got := shim.GetState stub Puid in (* get the product from chaincode state *)
  match got with
  | Err _ =>
      let jsonResp := lit "{'Error':'Failed to get state for " +:+ Puid +:+ lit "'}" in
      shim.ret (shim.Error jsonResp)
  | Ok None =>
      let jsonResp := lit "{'Error':'Marble does not exist: " +:+ Puid +:+ lit "'}" in
      shim.ret (shim.Error jsonResp)
  | Ok (Some valAsbytes) => shim.ret (shim.Success (Some valAsbytes))
  end.

(** *** transferProduct *)

Definition transferProduct (stub : shim.ChaincodeStub) (args : list string) : shim.Tx pb.Response :=
  if Nat.ltb (length args) 2 then
    shim.ret (shim.Error "Incorrect number of arguments. Expecting 2")
  else
  let puid := index args 0 in
  let newOwner := ToLower (index args 1) in
  let* got := shim.GetState stub puid in
  match got with
  | Err err => shim.ret (shim.Error ("Failed to get product:" +:+ err))
  | Ok None => shim.ret (shim.Error "Product does not exist")
  | Ok (Some productAsBytes) =>
  let productToTransfer := zero_product in
  match json_Unmarshal productAsBytes productToTransfer with (* unmarshal it aka JSON.parse() *)
  | Err err => shim.ret (shim.Error err)
  | Ok productToTransfer =>
  let productToTransfer := set_Owner productToTransfer newOwner in (* change the owner *)
  (* the error of this Marshal is dropped; on an error the bytes would be nil *)
  let productJSONasBytes :=
    match json_Marshal productToTransfer with Ok b => b | Err _ => [] end in
  let* err := shim.PutState stub puid productJSONasBytes in (* rewrite the product *)
  match err with
  | Some err => shim.ret (shim.Error err)
  | None => shim.ret (shim.Success None)
  end end end.

(** *** queryProduct *)

(** The loop of [getQueryResultForQueryString] over the iterator: [buffer]
    is the JSON array under construction. *)
Fixpoint queryResultsLoop (resultsIterator : shim.Iterator shim.KV)
    (buffer : string) (bArrayMemberAlreadyWritten : bool) : result string :=
  match resultsIterator with
  | [] => Ok buffer
  | Err err :: _ => Err err
  | Ok queryResponse :: rest =>
      (* Add a comma before array members, suppress it for the first array member *)
      let buffer := if bArrayMemberAlreadyWritten then buffer +:+ "," else buffer in
      let buffer := buffer +:+ lit "{'Key':" in
      let buffer := buffer +:+ lit "'" in
      let buffer := buffer +:+ shim.Key queryResponse in
      let buffer := buffer +:+ lit "'" in
      let buffer := buffer +:+ lit ", 'Record':" in
      (* Record is a JSON object, so we write as-is *)
      let buffer := buffer +:+ string_of_bytes (shim.Value queryResponse) in
      let buffer := buffer +:+ "}" in
      queryResultsLoop rest buffer true
  end.

(** [getQueryResultForQueryString] executes the passed in query string. *)
Definition getQueryResultForQueryString (stub : shim.ChaincodeStub) (queryString : string)
  : shim.Tx (result bytes) :=
  let* got := shim.GetQueryResult stub queryString in
  match got with
  | Err err => shim.ret (Err err)
  | Ok resultsIterator =>
      (* buffer is a JSON array containing QueryRecords *)
      match queryResultsLoop resultsIterator "[" false with
      | Err err => shim.ret (Err err)
      | Ok buffer => shim.ret (Ok (bytes_of_string (buffer +:+ "]")))
      end
  end.

Definition queryProduct (stub : shim.ChaincodeStub) (args : list string) : shim.Tx pb.Response :=
  if Nat.ltb (length args) 1 then
    shim.ret (shim.Error "Incorrect number of arguments. Expecting 1")
  else
  let queryString := index args 0 in
  let* got := getQueryResultForQueryString stub queryString in
  match got with
  | Err err => shim.ret (shim.Error err)
  | Ok queryResults => shim.ret (shim.Success (Some queryResults))
  end.

(** *** getHistoryForProduct *)

Fixpoint historyLoop (resultsIterator : shim.Iterator shim.KeyModification)
    (buffer : string) (bArrayMemberAlreadyWritten : bool) : result string :=
  match resultsIterator with
  | [] => Ok buffer
  | Err err :: _ => Err err
  | Ok response :: rest =>
      let buffer := if bArrayMemberAlreadyWritten then buffer +:+ "," else buffer in
      let buffer := buffer +:+ lit "{'TxId':" in
      let buffer := buffer +:+ lit "'" in
      let buffer := buffer +:+ shim.TxId response in
      let buffer := buffer +:+ lit "'" in
      let buffer := buffer +:+ lit ", 'Value':" in
      (* a delete operation on the key is written as null *)
      let buffer :=
        if shim.IsDelete response then buffer +:+ "null"
        else buffer +:+ string_of_bytes (shim.HistValue response) in
      let buffer := buffer +:+ lit ", 'Timestamp':" in
      let buffer := buffer +:+ lit "'" in
      let buffer := buffer +:+ time_Unix_String (shim.Seconds response) (shim.Nanos response) in
      let buffer := buffer +:+ lit "'" in
      let buffer := buffer +:+ lit ", 'IsDelete':" in
      let buffer := buffer +:+ lit "'" in
      let buffer := buffer +:+ strconv.FormatBool (shim.IsDelete response) in
      let buffer := buffer +:+ lit "'" in
      let buffer := buffer +:+ "}" in
      historyLoop rest buffer true
  end.

Definition getHistoryForProduct (stub : shim.ChaincodeStub) (args : list string)
  : shim.Tx pb.Response :=
  if Nat.ltb (length args) 1 then
    shim.ret (shim.Error "Incorrect number of arguments. Expecting 1")
  else
  let Puid := index args 0 in
  let* got := shim.GetHistoryForKey stub Puid in
  match got with
  | Err err => shim.ret (shim.Error err)
  | Ok resultsIterator =>
      (* buffer is a JSON array containing historic values for the product *)
      match historyLoop resultsIterator "[" false with
      | Err err => shim.ret (shim.Error err)
      | Ok buffer => shim.ret (shim.Success (Some (bytes_of_string (buffer +:+ "]"))))
      end
  end.

(** *** Init and Invoke *)

Definition Init (stub : shim.ChaincodeStub) : shim.Tx pb.Response :=
  shim.ret (shim.Success None).

(** Invoke - the entry point for invocations *)
Definition Invoke (stub : shim.ChaincodeStub) : shim.Tx pb.Response :=
  let (function, args) := shim.GetFunctionAndParameters stub in
  (* Handle different functions *)
  if String.eqb function "initProduct" then (* create a new product *)
    initProduct stub args
  else if String.eqb function "transferProduct" then (* change owner of a specific product *)
    transferProduct stub args
  else if String.eqb function "readProduct" then (* read a product *)
    readProduct stub args
  else if String.eqb function "queryProduct" then (* find product based on an ad hoc rich query *)
    queryProduct stub args
  else if String.eqb function "getHistoryForProduct" then (* get history of values for a product *)
    getHistoryForProduct stub args
  else
    shim.ret (shim.Error "Received unknown function invocation").

(** *** The invocation surface

    The five functions [Invoke] dispatches to, with the number of arguments
    each one names in its signature. *)

Inductive Operation : Type :=
| OpInitProduct
| OpTransferProduct
| OpReadProduct
| OpQueryProduct
| OpGetHistoryForProduct.

Definition operation_name (op : Operation) : string :=
  match op with
  | OpInitProduct => "initProduct"
  | OpTransferProduct => "transferProduct"
  | OpReadProduct => "readProduct"
  | OpQueryProduct => "queryProduct"
  | OpGetHistoryForProduct => "getHistoryForProduct"
  end.

Definition arity (op : Operation) : nat :=
  match op with
  | OpInitProduct => 4
  | OpTransferProduct => 2
  | OpReadProduct => 1
  | OpQueryProduct => 1
  | OpGetHistoryForProduct => 1
  end.

Definition handler (op : Operation)
  : shim.ChaincodeStub -> list string -> shim.Tx pb.Response :=
  match op with
  | OpInitProduct => initProduct
  | OpTransferProduct => transferProduct
  | OpReadProduct => readProduct
  | OpQueryProduct => queryProduct
  | OpGetHistoryForProduct => getHistoryForProduct
  end.

End Chaincode.

(** ** The benchmark driver (JavaScript)

    The module keeps a counter [txIndex]; every [run()] increments it and
    builds one [initProduct] invocation from it.  The harness object [bc] and
    the process id are the environment of the module. *)

Module Driver.

(** A JavaScript number is an IEEE double: integers are exact up to 2^53,
    and 2^53 + 1 rounds back to 2^53.  [txIndex] starts at 0 and is only
    ever incremented, so it takes the values 0 .. 2^53, on which
    [increment] is [txIndex++]. *)
Definition MAX_EXACT : N := 2 ^ 53.

Definition increment (x : N) : N := if (x <? MAX_EXACT)%N then (x + 1)%N else x.

(** [Number.prototype.toString] on a non-negative integer below 1e21 *)
Definition toString (x : N) : string := NilZero.string_of_uint (N.to_uint x).

Definition ID : list string := ["1q2"; "1w2"; "a12"; "dd4"].
Definition owners : list string := ["Alice"; "Bob"; "Claire"; "David"].

(** [a[i]]; an index outside the array gives [undefined], which the
    remainders taken below never reach. *)
Definition at_index (a : list string) (i : N) : string := nth (N.to_nat i) a "undefined".

Record Env : Type := mkEnv {
  bcType : string;      (* bc.bcType *)
  pid : N               (* process.pid *)
}.

(** The [args] object handed to [invokeSmartContract]. *)
Inductive Args : Type :=
| CcpArgs (chaincodeFunction : string) (chaincodeArguments : list string)
| VerbArgs (verb name id type owner : string).

(** [bc.invokeSmartContract(contx, contractID, version, args, timeout)] *)
Record Invocation : Type := mkInvocation {
  contractID : string;
  version : string;
  args : Args;
  timeout : N
}.

(** [run()], from the counter before the call to the counter after it and
    the invocation submitted. *)
Definition run (env : Env) (txIndex : N) : N * Invocation :=
  let txIndex := increment txIndex in
  let productName := "product_" +:+ toString txIndex +:+ "_" +:+ toString (pid env) in
  let productID := at_index ID (txIndex mod N.of_nat (length ID)) in
  let productType := toString (((txIndex mod 10) + 1) * 10) in (* [10, 100] *)
  let productOwner := at_index owners (txIndex mod N.of_nat (length owners)) in
  let args :=
    if String.eqb (bcType env) "fabric-ccp" then
      CcpArgs "initProduct" [productID; productName; productType; productOwner]
    else
      VerbArgs "initProduct" productName productID productType productOwner in
  (txIndex, mkInvocation "supply" "v1" args 30).

(** The counter after [k] calls of [run], starting from [let txIndex = 0]. *)
Definition txIndex_after (env : Env) (k : N) : N :=
  N.iter k (fun txIndex => fst (run env txIndex)) 0%N.

(** The invocation produced by the [n]-th call of [run] (n >= 1). *)
Definition nth_invocation (env : Env) (n : N) : Invocation :=
  snd (run env (txIndex_after env (n - 1))).

(** What an invocation asks for, whichever shape its [args] have. *)
Definition invoked_function (i : Invocation) : string :=
  match args i with
  | CcpArgs f _ => f
  | VerbArgs v _ _ _ _ => v
  end.

Definition product_id (i : Invocation) : string :=
  match args i with
  | CcpArgs _ a => nth 0 a ""
  | VerbArgs _ _ id _ _ => id
  end.

Definition product_type (i : Invocation) : string :=
  match args i with
  | CcpArgs _ a => nth 2 a ""
  | VerbArgs _ _ _ type _ => type
  end.

Definition product_owner (i : Invocation) : string :=
  match args i with
  | CcpArgs _ a => nth 3 a ""
  | VerbArgs _ _ _ _ owner => owner
  end.

End Driver.

(** ** Sample runtime, stubs and ledgers

    A runtime to evaluate the handlers on concrete invocations.  Its string
    encoder covers ASCII strings; its [Unmarshal] reads back an object of
    string members that need no escape, member by member, and leaves the
    fields of unknown keys alone; its time formatter prints the seconds
    only.  Non-ASCII strings are not lowered. *)

Module Sample.

Definition quote : ascii := "034"%char.

(** The pieces of [s] between double quotes, [cur] being the piece under
    way. *)
Fixpoint pieces (s : string) (cur : string) : list string :=
  match s with
  | EmptyString => [cur]
  | String c s' =>
      if Ascii.eqb c quote then cur :: pieces s' ""
      else pieces s' (cur +:+ String c "")
  end.

Definition hexDigit (n : N) : ascii :=
  Ascii.ascii_of_N (if (n <? 10)%N then 48 + n else 87 + n).

(** The escape of one ASCII character, as the encoder writes it with HTML
    escaping on. *)
Definition escape (c : ascii) : string :=
  let n := Ascii.N_of_ascii c in
  if (n =? 34)%N || (n =? 92)%N then String "092" (String c "")
  else if (n =? 10)%N then String "092" "n"
  else if (n =? 13)%N then String "092" "r"
  else if (n =? 9)%N then String "092" "t"
  else if (n <? 32)%N || (n =? 60)%N || (n =? 62)%N || (n =? 38)%N then
    String "092" "u00" +:+ String (hexDigit (n / 16)) (String (hexDigit (n mod 16)) "")
  else String c "".

Fixpoint escapeAll (s : string) : string :=
  match s with
  | EmptyString => EmptyString
  | String c s' => escape c +:+ escapeAll s'
  end.

Definition encodeString (s : string) : string :=
  String quote (escapeAll s) +:+ String quote "".

Definition assign (key value : string) (p : product) : product :=
  if String.eqb key "docType" then mkProduct value (Puid p) (Pname p) (Ptype p) (Owner p)
  else if String.eqb key "puid" then mkProduct (ObjectType p) value (Pname p) (Ptype p) (Owner p)
  else if String.eqb key "pname" then mkProduct (ObjectType p) (Puid p) value (Ptype p) (Owner p)
  else if String.eqb key "ptype" then mkProduct (ObjectType p) (Puid p) (Pname p) value (Owner p)
  else if String.eqb key "owner" then mkProduct (ObjectType p) (Puid p) (Pname p) (Ptype p) value
  else p.

Fixpoint members (segs : list string) (p : product) : result product :=
  match segs with
  | key :: colon :: value :: sep :: rest =>
      if negb (String.eqb colon ":") then Err "invalid character"
      else if String.eqb sep "," then members rest (assign key value p)
      else if String.eqb sep "}" then
        match rest with
        | [] => Ok (assign key value p)
        | _ :: _ => Err "invalid character"
        end
      else Err "invalid character"
  | _ => Err "unexpected end of JSON input"
  end.

Definition Unmarshal (data : bytes) (p : product) : result product :=
  match pieces (string_of_bytes data) "" with
  | open :: rest =>
      if String.eqb open "{" then members rest p else Err "invalid character"
  | [] => Err "unexpected end of JSON input"
  end.

Definition runtime : GoRuntime := {|
  unicode_ToLower := fun s => s;
  json_encodeString := encodeString;
  json_Unmarshal := Unmarshal;
  time_Unix_String := fun sec nsec => Driver.toString (Z.to_N sec)
|}.

(** A stub whose store never fails, and whose query engine and history
    answer every request with an empty iterator. *)
Definition reliable (function : string) (args : list string) : shim.ChaincodeStub :=
  {| shim.Function := function;
     shim.Parameters := args;
     shim.GetStateFails := fun _ => None;
     shim.PutStateFails := fun _ _ => None;
     shim.QueryEngine := fun _ _ => Ok [];
     shim.HistoryDB := fun _ => Ok [] |}.

(** A stub whose store refuses every write of the index sentinel. *)
Definition index_write_fails (function : string) (args : list string) : shim.ChaincodeStub :=
  {| shim.Function := function;
     shim.Parameters := args;
     shim.GetStateFails := fun _ => None;
     shim.PutStateFails := fun _ value =>
       match value with
       | [x00] => Some "put state failed"
       | _ => None
       end;
     shim.QueryEngine := fun _ _ => Ok [];
     shim.HistoryDB := fun _ => Ok [] |}.

Definition stub0 : shim.ChaincodeStub := reliable "initProduct" [].

Definition empty_ledger : shim.Ledger :=
  {| shim.WorldState := ∅; shim.Trace := [] |}.

(** The ledger after [initProduct("p1", "Bolt", "Steel", "Alice")]. *)
Definition ledger_p1 : shim.Ledger :=
  snd (initProduct (go := runtime) (reliable "initProduct" ["p1"; "Bolt"; "Steel"; "Alice"])
         ["p1"; "Bolt"; "Steel"; "Alice"] empty_ledger).

(** The record of the product "p1" in [ledger_p1], its encoding and its
    index key. *)
Definition p1 : product := mkProduct "product" "p1" "bolt" "steel" "alice".
Definition json_p1 : bytes := json_encodeProduct (go := runtime) p1.
Definition ck_p1 : string :=
  String "000" "type~name" +:+ String "000" "steel" +:+ String "000" "bolt"
    +:+ String "000" "".

(** An identifier that is itself the index key of type "t" and name "n". *)
Definition index_like_id : string :=
  String "000" "type~name" +:+ String "000" "t" +:+ String "000" "n" +:+ String "000" "".

End Sample.

(** ** The shape of the query and history answers

    The answers of [queryProduct] and [getHistoryForProduct] are JSON arrays
    assembled piece by piece; here is what one member looks like, and a list
    of members joined by commas. *)

Fixpoint join (sep : string) (members : list string) : string :=
  match members with
  | [] => ""
  | [m] => m
  | m :: rest => m +:+ sep +:+ join sep rest
  end.

(** What the loops have appended to the buffer after [members], the first
    of them after a comma when a member was already written. *)
Definition appended (written : bool) (members : list string) : string :=
  match members with
  | [] => ""
  | _ :: _ => (if written then "," else "") +:+ join "," members
  end.

Definition queryMember (kv : shim.KV) : string :=
  lit "{'Key':'" +:+ shim.Key kv +:+ lit "', 'Record':" +:+
  string_of_bytes (shim.Value kv) +:+ "}".

Section HistoryMember.

Context `{go : GoRuntime}.

Definition historyMember (km : shim.KeyModification) : string :=
  lit "{'TxId':'" +:+ shim.TxId km +:+ lit "', 'Value':" +:+
  (if shim.IsDelete km then "null" else string_of_bytes (shim.HistValue km)) +:+
  lit ", 'Timestamp':'" +:+ time_Unix_String (shim.Seconds km) (shim.Nanos km) +:+
  lit "', 'IsDelete':'" +:+ strconv.FormatBool (shim.IsDelete km) +:+ lit "'}".

End HistoryMember.

(** The accesses that write. *)
Definition is_write (a : shim.Access) : bool :=
  match a with
  | shim.WriteState _ _ => true
  | _ => false
  end.

(** The trace [after] extends the trace [before] by at most three accesses,
    at most two of them writes. *)
Definition within_bounds (before after : list shim.Access) : Prop :=
  exists accesses,
    after = before ++ accesses /\
    length accesses <= 3 /\ length (List.filter is_write accesses) <= 2.

(** A key in the composite-key namespace starts with the byte 0x00. *)
Definition in_composite_namespace (key : string) : bool :=
  match key with
  | String c _ => Ascii.eqb c "000"%char
  | EmptyString => false
  end.

(** The [chaincodeArguments] of an invocation built for 'fabric-ccp'. *)
Definition chaincodeArguments (i : Driver.Invocation) : option (list string) :=
  match Driver.args i with
  | Driver.CcpArgs _ a => Some a
  | Driver.VerbArgs _ _ _ _ _ => None
  end.

(** [productName] of an invocation. *)
Definition product_name (i : Driver.Invocation) : string :=
  match Driver.args i with
  | Driver.CcpArgs _ a => nth 1 a ""
  | Driver.VerbArgs _ name _ _ _ => name
  end.

(** ** More sample stubs and data *)

Module Catalog.

(** A stub whose store never fails, whose query engine answers every query
    with [kvs] and whose history of every key is [kms]. *)
Definition answering (kvs : list shim.KV) (kms : list shim.KeyModification)
  : shim.ChaincodeStub :=
  {| shim.Function := "queryProduct";
     shim.Parameters := [];
     shim.GetStateFails := fun _ => None;
     shim.PutStateFails := fun _ _ => None;
     shim.QueryEngine := fun _ _ => Ok (Ok <$> kvs);
     shim.HistoryDB := fun _ => Ok (Ok <$> kms) |}.

(** The same, with iterators that fail with [e] after their last result. *)
Definition breaking (e : error) (kvs : list shim.KV) (kms : list shim.KeyModification)
  : shim.ChaincodeStub :=
  {| shim.Function := "queryProduct";
     shim.Parameters := [];
     shim.GetStateFails := fun _ => None;
     shim.PutStateFails := fun _ _ => None;
     shim.QueryEngine := fun _ _ => Ok ((Ok <$> kvs) ++ [Err e]);
     shim.HistoryDB := fun _ => Ok ((Ok <$> kms) ++ [Err e]) |}.

(** A stub whose reads of the state fail. *)
Definition unreadable (e : error) : shim.ChaincodeStub :=
  {| shim.Function := "readProduct";
     shim.Parameters := [];
     shim.GetStateFails := fun _ => Some e;
     shim.PutStateFails := fun _ _ => None;
     shim.QueryEngine := fun _ _ => Ok [];
     shim.HistoryDB := fun _ => Ok [] |}.

Definition kv_p1 : shim.KV := shim.mkKV "p1" Sample.json_p1.
Definition kv_p2 : shim.KV :=
  shim.mkKV "p2" (json_encodeProduct (go := Sample.runtime)
                    (mkProduct "product" "p2" "nut" "brass" "bob")).

(** The creation of "p1" and its deletion. *)
Definition km_created : shim.KeyModification :=
  shim.mkKeyModification "tx1" Sample.json_p1 1546300800 0 false.
Definition km_deleted : shim.KeyModification :=
  shim.mkKeyModification "tx2" [] 1546300860 0 true.

(** A name with a zero byte in it. *)
Definition name_with_zero : string := "bo" +:+ String "000" "lt".

Definition env : Driver.Env := Driver.mkEnv "fabric-ccp" 4242.

End Catalog.

(** * Properties *)

Section Properties.

Context `{go : GoRuntime}.

(** ** The stub *)

Lemma record_access_WorldState a l :
  shim.WorldState (shim.record_access a l) = shim.WorldState l.
Proof. reflexivity. Qed.

Lemma GetState_eq stub key l :
  shim.GetState stub key l =
    (match shim.GetStateFails stub key with
     | Some e => Err e
     | None => Ok (shim.WorldState l !! key)
     end, shim.record_access (shim.ReadState key) l).
Proof. reflexivity. Qed.

Lemma PutState_ok stub key value l :
  shim.PutStateFails stub key value = None ->
  value <> [] ->
  shim.PutState stub key value l =
    (None, {| shim.WorldState := <[key := value]> (shim.WorldState l);
              shim.Trace := shim.Trace l ++ [shim.WriteState key value] |}).
Proof.
  intros Hput Hne. unfold shim.PutState. rewrite Hput.
  destruct value; [contradiction | reflexivity].
Qed.

Lemma PutState_fails stub key value l e :
  shim.PutStateFails stub key value = Some e ->
  shim.PutState stub key value l =
    (Some e, shim.record_access (shim.WriteState key value) l).
Proof. intros Hput. unfold shim.PutState. now rewrite Hput. Qed.

(** The encoding of a product is never the empty slice: it opens a JSON
    object. *)
Lemma json_encodeProduct_brace p :
  exists rest, json_encodeProduct p = "{"%byte :: rest.
Proof. eexists. reflexivity. Qed.

Lemma json_encodeProduct_nonempty p : json_encodeProduct p <> [].
Proof. destruct (json_encodeProduct_brace p) as [rest ->]. discriminate. Qed.

Lemma nonempty_length (s : string) : s <> "" -> Nat.leb (String.length s) 0 = false.
Proof. destruct s; [contradiction | reflexivity]. Qed.

(** ** What a successful initProduct has done *)

Ltac failed_response H :=
  unfold shim.ret in H; injection H as <- <-; discriminate.

Lemma initProduct_success stub args l resp l' :
  initProduct stub args l = (resp, l') ->
  pb.Status resp = shim.OK ->
  exists id name type owner ck,
    let record := {| ObjectType := "product"; Puid := id; Pname := ToLower name;
                     Ptype := ToLower type; Owner := ToLower owner |} in
    args = [id; name; type; owner] /\
    (id <> "" /\ name <> "" /\ type <> "" /\ owner <> "") /\
    shim.GetStateFails stub id = None /\
    shim.WorldState l !! id = None /\
    shim.PutStateFails stub id (json_encodeProduct record) = None /\
    shim.CreateCompositeKey "type~name" [ToLower type; ToLower name] = Ok ck /\
    resp = shim.Success None /\
    l' = snd (shim.PutState stub ck [x00]
                {| shim.WorldState := <[id := json_encodeProduct record]> (shim.WorldState l);
                   shim.Trace := shim.Trace l ++
                     [shim.ReadState id; shim.WriteState id (json_encodeProduct record)] |}).
Proof.
  intros Hrun Hok. unfold initProduct in Hrun.
  destruct args as [|id [|name [|type [|owner [|extra args]]]]];
    cbn [length Nat.eqb negb index nth] in Hrun; try (failed_response Hrun).
  destruct (Nat.leb (String.length id) 0) eqn:Hid; [failed_response Hrun|].
  destruct (Nat.leb (String.length name) 0) eqn:Hname; [failed_response Hrun|].
  destruct (Nat.leb (String.length type) 0) eqn:Htype; [failed_response Hrun|].
  destruct (Nat.leb (String.length owner) 0) eqn:Howner; [failed_response Hrun|].
  unfold shim.bind in Hrun. rewrite GetState_eq in Hrun.
  destruct (shim.GetStateFails stub id) eqn:Hget; [failed_response Hrun|].
  destruct (shim.WorldState l !! id) eqn:Hlook; [failed_response Hrun|].
  unfold json_Marshal in Hrun. cbv zeta in Hrun. cbn [Ptype Pname] in Hrun.
  match type of Hrun with context [shim.PutState stub id ?b _] => set (json := b) in * end.
  destruct (shim.PutStateFails stub id json) eqn:Hput.
  { rewrite (PutState_fails _ _ _ _ _ Hput) in Hrun. failed_response Hrun. }
  rewrite (PutState_ok _ _ _ _ Hput (json_encodeProduct_nonempty _)) in Hrun.
  destruct (shim.CreateCompositeKey "type~name" [ToLower type; ToLower name]) as [ck|e] eqn:Hck;
    [|failed_response Hrun].
  simpl shim.Trace in Hrun. rewrite <- app_assoc in Hrun. simpl app in Hrun.
  rewrite record_access_WorldState in Hrun.
  destruct (shim.PutState stub ck [x00] _) as [dropped l2] eqn:Hidx in Hrun.
  unfold shim.ret in Hrun. injection Hrun as <- <-.
  exists id, name, type, owner, ck. cbn zeta.
  repeat split; try (intros ->; discriminate); try assumption.
  transitivity (snd (dropped, l2)); [reflexivity|]. now rewrite <- Hidx.
Qed.

(** The world state after the write of the index sentinel, whose error
    [initProduct] drops. *)
Lemma index_write_WorldState stub ck l :
  shim.WorldState (snd (shim.PutState stub ck [x00] l)) =
    match shim.PutStateFails stub ck [x00] with
    | Some _ => shim.WorldState l
    | None => <[ck := [x00]]> (shim.WorldState l)
    end.
Proof. unfold shim.PutState. now destruct (shim.PutStateFails stub ck [x00]). Qed.

Lemma index_write_Trace stub ck l :
  shim.Trace (snd (shim.PutState stub ck [x00] l)) =
    shim.Trace l ++ [shim.WriteState ck [x00]].
Proof. unfold shim.PutState. now destruct (shim.PutStateFails stub ck [x00]). Qed.

(** ** Composite keys *)

Lemma append_empty_r (s : string) : s +:+ "" = s.
Proof.
  induction s as [|c s IH]; [reflexivity|].
  change (String c (s +:+ "") = String c s). now f_equal.
Qed.

Lemma append_assoc (s1 s2 s3 : string) : (s1 +:+ s2) +:+ s3 = s1 +:+ (s2 +:+ s3).
Proof.
  induction s1 as [|c s1 IH]; [reflexivity|].
  change (String c ((s1 +:+ s2) +:+ s3) = String c (s1 +:+ (s2 +:+ s3))). now f_equal.
Qed.

Lemma appendAttributes_extends (attributes : list string) :
  forall ck ck', shim.appendAttributes ck attributes = Ok ck' ->
  exists rest, ck' = ck +:+ rest.
Proof.
  induction attributes as [|att attributes IH]; intros ck ck' Hck; cbn in Hck.
  - injection Hck as <-. exists "". symmetry. apply append_empty_r.
  - destruct (shim.validateCompositeKeyAttribute att); [discriminate|].
    destruct (IH _ _ Hck) as [rest ->].
    exists (att +:+ String "000" "" +:+ rest).
    now rewrite !append_assoc.
Qed.

(** Every composite key starts with the namespace byte 0x00: an identifier
    that starts with any other byte is the index key of no product. *)
Lemma CreateCompositeKey_namespace objectType attributes ck :
  shim.CreateCompositeKey objectType attributes = Ok ck ->
  exists rest, ck = String "000" rest.
Proof.
  unfold shim.CreateCompositeKey.
  destruct (shim.validateCompositeKeyAttribute objectType); [discriminate|].
  intros Hck. destruct (appendAttributes_extends _ _ _ Hck) as [rest ->].
  eexists. reflexivity.
Qed.

(** ** Reading back a created product *)

(** C1 (amended). After a successful [initProduct(id, name, type, owner)]
    (which implies that the four arguments are non-empty), provided that
    the composite index key built from the lower-cased type and name is not
    [id] itself, a [readProduct(id)] whose state read does not fail succeeds
    and returns the JSON encoding of the record with docType "product", puid
    [id] as supplied, and pname, ptype and owner the lower-cased name, type
    and owner. *)
Theorem C1_read_back_created_product
    stub stub' l l1 resp (id name type owner : string) :
  initProduct stub [id; name; type; owner] l = (resp, l1) ->
  pb.Status resp = shim.OK ->
  shim.CreateCompositeKey "type~name" [ToLower type; ToLower name] <> Ok id ->
  shim.GetStateFails stub' id = None ->
  exists payload,
    json_Marshal {| ObjectType := "product"; Puid := id; Pname := ToLower name;
                    Ptype := ToLower type; Owner := ToLower owner |} = Ok payload /\
    fst (readProduct stub' [id] l1) = shim.Success (Some payload).
Proof.
  intros Hrun Hok Hck Hget.
  destruct (initProduct_success _ _ _ _ _ Hrun Hok)
    as (id' & name' & type' & owner' & ck & Hargs & _ & _ & _ & _ & Hck' & _ & ->).
  injection Hargs as <- <- <- <-.
  eexists. split; [reflexivity|].
  unfold readProduct. cbn [length Nat.eqb negb index nth].
  unfold shim.bind. rewrite GetState_eq, Hget, index_write_WorldState.
  cbn [shim.WorldState].
  assert (ck <> id) as Hne by (intros ->; now apply Hck).
  destruct (shim.PutStateFails stub ck [x00]).
  - now rewrite lookup_insert_eq.
  - now rewrite lookup_insert_ne, lookup_insert_eq.
Qed.

(** ** Creating a product *)

(** C2. When a record is stored under a (non-empty) [id], as the stub
    reports it, [initProduct] with that [id] and any non-empty name, type and
    owner fails with the message that the product already exists, and the
    world state, in particular the record under [id], is unchanged. *)
Theorem C2_init_rejects_existing_id stub l (id name type owner : string) v :
  id <> "" -> name <> "" -> type <> "" -> owner <> "" ->
  fst (shim.GetState stub id l) = Ok (Some v) ->
  exists l',
    initProduct stub [id; name; type; owner] l =
      (shim.Error ("This product already exists: " +:+ id), l') /\
    shim.WorldState l' = shim.WorldState l /\
    shim.WorldState l' !! id = Some v.
Proof.
  intros Hid Hname Htype Howner Hstored.
  rewrite GetState_eq in Hstored. cbn [fst] in Hstored.
  exists (shim.record_access (shim.ReadState id) l).
  unfold initProduct. cbn [length Nat.eqb negb index nth].
  rewrite !nonempty_length by assumption.
  unfold shim.bind. rewrite GetState_eq.
  destruct (shim.GetStateFails stub id); [discriminate|].
  injection Hstored as Hstored. rewrite Hstored.
  now rewrite record_access_WorldState.
Qed.

(** C7 (amended). A successful [initProduct(id, name, type, owner)] (which
    implies that the four arguments are non-empty and that no record was
    stored under [id]), when the composite index key [ck] built from
    "type~name" and the lower-cased type and name is not [id] itself and the
    store accepts the write of the index entry, writes exactly two keys: the
    JSON-encoded record under [id] and the single byte 0x00 under [ck];
    every other key is left as it was. *)
Theorem C7_init_writes_record_and_index
    stub l l' resp (id name type owner ck : string) :
  initProduct stub [id; name; type; owner] l = (resp, l') ->
  pb.Status resp = shim.OK ->
  shim.CreateCompositeKey "type~name" [ToLower type; ToLower name] = Ok ck ->
  ck <> id ->
  shim.PutStateFails stub ck [x00] = None ->
  let json := json_encodeProduct
                {| ObjectType := "product"; Puid := id; Pname := ToLower name;
                   Ptype := ToLower type; Owner := ToLower owner |} in
  shim.WorldState l' = <[ck := [x00]]> (<[id := json]> (shim.WorldState l)) /\
  shim.WorldState l' !! id = Some json /\
  shim.WorldState l' !! ck = Some [x00] /\
  (forall k, k <> id -> k <> ck -> shim.WorldState l' !! k = shim.WorldState l !! k) /\
  shim.Trace l' =
    shim.Trace l ++
      [shim.ReadState id; shim.WriteState id json; shim.WriteState ck [x00]].
Proof.
  intros Hrun Hok Hck Hne Hput json.
  destruct (initProduct_success _ _ _ _ _ Hrun Hok)
    as (id' & name' & type' & owner' & ck' & Hargs & _ & _ & _ & _ & Hck' & _ & ->).
  injection Hargs as <- <- <- <-.
  rewrite Hck in Hck'. injection Hck' as <-.
  rewrite index_write_WorldState, index_write_Trace, Hput.
  cbn [shim.WorldState shim.Trace]. fold json.
  repeat split.
  - now rewrite lookup_insert_ne, lookup_insert_eq.
  - now rewrite lookup_insert_eq.
  - intros k Hk1 Hk2. now rewrite !lookup_insert_ne.
  - now rewrite <- app_assoc.
Qed.

(** C10. [initProduct] drops the error of the write of the composite index
    key: when that write fails (everything before it having succeeded) the
    response is still a success, and the only change to the world state is
    the record under [id]; the index entry was not written. *)
Theorem C10_index_write_error_dropped
    stub l (id name type owner ck : string) e :
  id <> "" -> name <> "" -> type <> "" -> owner <> "" ->
  fst (shim.GetState stub id l) = Ok None ->
  let json := json_encodeProduct
                {| ObjectType := "product"; Puid := id; Pname := ToLower name;
                   Ptype := ToLower type; Owner := ToLower owner |} in
  shim.PutStateFails stub id json = None ->
  shim.CreateCompositeKey "type~name" [ToLower type; ToLower name] = Ok ck ->
  shim.PutStateFails stub ck [x00] = Some e ->
  exists l',
    initProduct stub [id; name; type; owner] l = (shim.Success None, l') /\
    shim.WorldState l' = <[id := json]> (shim.WorldState l) /\
    (ck <> id -> shim.WorldState l' !! ck = shim.WorldState l !! ck).
Proof.
  intros Hid Hname Htype Howner Hfree json Hput Hck Hidx.
  rewrite GetState_eq in Hfree. cbn [fst] in Hfree.
  unfold initProduct. cbn [length Nat.eqb negb index nth].
  rewrite !nonempty_length by assumption.
  unfold shim.bind. rewrite GetState_eq.
  destruct (shim.GetStateFails stub id); [discriminate|].
  injection Hfree as ->.
  unfold json_Marshal. cbv zeta. cbn [Ptype Pname]. fold json.
  rewrite (PutState_ok _ _ _ _ Hput (json_encodeProduct_nonempty _)).
  rewrite Hck, (PutState_fails _ _ _ _ _ Hidx).
  eexists. split; [reflexivity|]. cbn [shim.WorldState shim.record_access].
  split; [reflexivity|]. intros Hne. now rewrite lookup_insert_ne.
Qed.

(** ** Transferring a product *)

(** C3. When no record is stored under [id], [transferProduct(id, newOwner)]
    returns a failure response and leaves the world state unchanged, for
    every [newOwner]; if the state read itself succeeds, the failure says
    that the product does not exist. *)
Theorem C3_transfer_of_missing_product_fails stub l (id newOwner : string) :
  shim.WorldState l !! id = None ->
  exists msg l',
    transferProduct stub [id; newOwner] l = (shim.Error msg, l') /\
    shim.WorldState l' = shim.WorldState l /\
    (shim.GetStateFails stub id = None -> msg = "Product does not exist").
Proof.
  intros Hfree. unfold transferProduct. cbn [length Nat.ltb Nat.leb index nth].
  unfold shim.bind. rewrite GetState_eq, Hfree.
  destruct (shim.GetStateFails stub id) as [e|]; do 2 eexists;
    (split; [reflexivity|]); (split; [reflexivity|]); [discriminate | reflexivity].
Qed.

(** C4. When the value stored under [id] is a valid JSON product record
    [p], a successful [transferProduct(id, newOwner)] rewrites the value
    under [id] with the encoding of [p] whose owner is the lower-cased
    [newOwner], the other four fields being those of [p]; it writes no other
    key. *)
Theorem C4_transfer_rewrites_owner_only
    stub l l' resp (id newOwner : string) v p :
  shim.WorldState l !! id = Some v ->
  json_Unmarshal v zero_product = Ok p ->
  transferProduct stub [id; newOwner] l = (resp, l') ->
  pb.Status resp = shim.OK ->
  exists p' json,
    json_Marshal p' = Ok json /\
    (Owner p' = ToLower newOwner /\ ObjectType p' = ObjectType p /\
     Puid p' = Puid p /\ Pname p' = Pname p /\ Ptype p' = Ptype p) /\
    shim.WorldState l' = <[id := json]> (shim.WorldState l) /\
    (forall k, k <> id -> shim.WorldState l' !! k = shim.WorldState l !! k) /\
    shim.Trace l' = shim.Trace l ++ [shim.ReadState id; shim.WriteState id json].
Proof.
  intros Hstored Hparse Hrun Hok.
  unfold transferProduct in Hrun. cbn [length Nat.ltb Nat.leb index nth] in Hrun.
  unfold shim.bind in Hrun. rewrite GetState_eq, Hstored in Hrun.
  destruct (shim.GetStateFails stub id); [failed_response Hrun|].
  rewrite Hparse in Hrun. unfold json_Marshal in Hrun. cbv zeta in Hrun.
  match type of Hrun with context [shim.PutState stub id ?b _] => set (json := b) in * end.
  destruct (shim.PutStateFails stub id json) eqn:Hput.
  { rewrite (PutState_fails _ _ _ _ _ Hput) in Hrun. failed_response Hrun. }
  rewrite (PutState_ok _ _ _ _ Hput (json_encodeProduct_nonempty _)) in Hrun.
  unfold shim.ret in Hrun. injection Hrun as <- <-.
  exists (set_Owner p (ToLower newOwner)), json.
  cbn [shim.WorldState shim.Trace shim.record_access].
  repeat split.
  - intros k Hk. now rewrite lookup_insert_ne.
  - now rewrite <- app_assoc.
Qed.

(** ** The operations that only read *)

Lemma readProduct_reads_only stub args l :
  shim.WorldState (snd (readProduct stub args l)) = shim.WorldState l.
Proof.
  unfold readProduct.
  destruct (negb (Nat.eqb (length args) 1)); [reflexivity|].
  unfold shim.bind. rewrite GetState_eq.
  destruct (shim.GetStateFails stub (index args 0)); [reflexivity|].
  now destruct (shim.WorldState l !! index args 0).
Qed.

Lemma queryProduct_reads_only stub args l :
  shim.WorldState (snd (queryProduct stub args l)) = shim.WorldState l.
Proof.
  unfold queryProduct.
  destruct (Nat.ltb (length args) 1); [reflexivity|].
  unfold getQueryResultForQueryString, shim.bind, shim.GetQueryResult.
  destruct (shim.QueryEngine stub (index args 0) (shim.WorldState l)) as [it|e];
    [|reflexivity].
  now destruct (queryResultsLoop it "[" false).
Qed.

Lemma getHistoryForProduct_reads_only stub args l :
  shim.WorldState (snd (getHistoryForProduct stub args l)) = shim.WorldState l.
Proof.
  unfold getHistoryForProduct.
  destruct (Nat.ltb (length args) 1); [reflexivity|].
  unfold shim.bind, shim.GetHistoryForKey.
  destruct (shim.HistoryDB stub (index args 0)) as [it|e]; [|reflexivity].
  now destruct (historyLoop it "[" false).
Qed.

(** ** Argument validation *)

Lemma Invoke_dispatch (op : Operation) stub :
  shim.Function stub = operation_name op ->
  Invoke stub = handler op stub (shim.Parameters stub).
Proof.
  intros Hname. unfold Invoke, shim.GetFunctionAndParameters. rewrite Hname.
  now destruct op.
Qed.

(** C5 (amended). [initProduct] and [readProduct] reject every argument
    list whose length differs from 4 and 1; [transferProduct],
    [queryProduct] and [getHistoryForProduct] reject every argument list
    shorter than 2, 1 and 1.  The rejection is a failure response reporting
    an incorrect number of arguments, and no state access is made: the
    ledger, world state and trace, is returned as it was. *)
Theorem C5_wrong_argument_count_rejected (op : Operation) stub l :
  shim.Function stub = operation_name op ->
  length (shim.Parameters stub) < arity op \/
    ((op = OpInitProduct \/ op = OpReadProduct) /\
     length (shim.Parameters stub) <> arity op) ->
  exists expecting,
    Invoke stub l =
      (shim.Error ("Incorrect number of arguments. Expecting " +:+ expecting), l) /\
    handler op stub (shim.Parameters stub) l = Invoke stub l.
Proof.
  intros Hname Hlen. rewrite (Invoke_dispatch op stub Hname).
  destruct op; cbn [handler arity] in *.
  - exists "4". split; [|reflexivity]. unfold initProduct.
    destruct (Nat.eqb_spec (length (shim.Parameters stub)) 4) as [Heq|_]; [lia|reflexivity].
  - exists "2". split; [|reflexivity]. unfold transferProduct.
    destruct (Nat.ltb_spec (length (shim.Parameters stub)) 2) as [_|Hge];
      [reflexivity|].
    destruct Hlen as [Hlt | [[Hop|Hop] _]]; [lia | discriminate | discriminate].
  - exists "product ID of the product to query". split; [|reflexivity].
    unfold readProduct.
    destruct (Nat.eqb_spec (length (shim.Parameters stub)) 1) as [Heq|_]; [lia|reflexivity].
  - exists "1". split; [|reflexivity]. unfold queryProduct.
    destruct (Nat.ltb_spec (length (shim.Parameters stub)) 1) as [_|Hge];
      [reflexivity|].
    destruct Hlen as [Hlt | [[Hop|Hop] _]]; [lia | discriminate | discriminate].
  - exists "1". split; [|reflexivity]. unfold getHistoryForProduct.
    destruct (Nat.ltb_spec (length (shim.Parameters stub)) 1) as [_|Hge];
      [reflexivity|].
    destruct Hlen as [Hlt | [[Hop|Hop] _]]; [lia | discriminate | discriminate].
Qed.

(** C6 (amended). When one of the four arguments of [initProduct] is the
    empty string, [initProduct] returns a failure response naming an empty
    argument by its position and makes no state access: the ledger is
    returned as it was. *)
Theorem C6_init_rejects_empty_argument stub (args : list string) l :
  length args = 4 ->
  (exists i, args !! i = Some "") ->
  exists i ordinal,
    args !! i = Some "" /\
    ["1st"; "2nd"; "3rd"; "4th"] !! i = Some ordinal /\
    initProduct stub args l =
      (shim.Error (ordinal +:+ " argument must be a non-empty string"), l).
Proof.
  intros Hlen [i Hi].
  destruct args as [|a0 [|a1 [|a2 [|a3 [|a4 args]]]]]; try discriminate.
  unfold initProduct. cbn [length Nat.eqb negb index nth].
  destruct a0 as [|c0 a0]; [now exists 0, "1st"|].
  destruct a1 as [|c1 a1]; [now exists 1, "2nd"|].
  destruct a2 as [|c2 a2]; [now exists 2, "3rd"|].
  destruct a3 as [|c3 a3]; [now exists 3, "4th"|].
  destruct i as [|[|[|[|i]]]]; discriminate.
Qed.

(** ** Dispatch *)

(** C9. For a function name that is none of the five of the invocation
    surface, [Invoke] returns the failure response "Received unknown
    function invocation" and makes no state access. *)
Theorem C9_unknown_function_rejected stub l :
  (forall op, shim.Function stub <> operation_name op) ->
  Invoke stub l = (shim.Error "Received unknown function invocation", l).
Proof.
  intros Hunknown. unfold Invoke, shim.GetFunctionAndParameters.
  destruct (String.eqb_spec (shim.Function stub) "initProduct") as [E|_];
    [now destruct (Hunknown OpInitProduct)|].
  destruct (String.eqb_spec (shim.Function stub) "transferProduct") as [E|_];
    [now destruct (Hunknown OpTransferProduct)|].
  destruct (String.eqb_spec (shim.Function stub) "readProduct") as [E|_];
    [now destruct (Hunknown OpReadProduct)|].
  destruct (String.eqb_spec (shim.Function stub) "queryProduct") as [E|_];
    [now destruct (Hunknown OpQueryProduct)|].
  destruct (String.eqb_spec (shim.Function stub) "getHistoryForProduct") as [E|_];
    [now destruct (Hunknown OpGetHistoryForProduct)|].
  reflexivity.
Qed.

End Properties.

(** ** The benchmark driver *)

Section DriverProperties.

Variable env : Driver.Env.

Lemma run_txIndex (txIndex : N) :
  fst (Driver.run env txIndex) = Driver.increment txIndex.
Proof. reflexivity. Qed.

(** The counter follows the number of calls up to 2^53 and stays there. *)
Lemma txIndex_after_min (k : N) :
  Driver.txIndex_after env k = N.min k Driver.MAX_EXACT.
Proof.
  unfold Driver.txIndex_after.
  induction k as [|k IH] using N.peano_ind; [reflexivity|].
  rewrite N.iter_succ, IH, run_txIndex. unfold Driver.increment.
  generalize Driver.MAX_EXACT as m. intros m.
  destruct (N.ltb_spec (N.min k m) m); lia.
Qed.

Lemma at_index_lookup (a : list string) (i : N) :
  (i < N.of_nat (length a))%N ->
  a !! N.to_nat i = Some (Driver.at_index a i).
Proof.
  intros Hi. unfold Driver.at_index.
  destruct (nth_lookup_or_length a (N.to_nat i) "undefined") as [Hin|Hout];
    [exact Hin | lia].
Qed.

(** C8 (amended). For every call number [n] with 1 <= n <= 2^53, the range
    in which the JavaScript counter is exact, the [n]-th invocation produced
    by [run()] is an [initProduct] invocation whose product identifier is
    the entry of index [n mod 4] of the pool ['1q2', '1w2', 'a12', 'dd4'],
    whose owner is the entry of index [n mod 4] of the pool ['Alice', 'Bob',
    'Claire', 'David'], and whose type is the decimal string of
    ((n mod 10) + 1) * 10, a number between 10 and 100. *)
Theorem C8_nth_invocation_of_run (n : N) :
  (1 <= n)%N ->
  (n <= Driver.MAX_EXACT)%N ->
  let i := Driver.nth_invocation env n in
  Driver.invoked_function i = "initProduct" /\
  ["1q2"; "1w2"; "a12"; "dd4"] !! N.to_nat (n mod 4) = Some (Driver.product_id i) /\
  ["Alice"; "Bob"; "Claire"; "David"] !! N.to_nat (n mod 4) = Some (Driver.product_owner i) /\
  Driver.product_type i = Driver.toString (((n mod 10) + 1) * 10) /\
  (10 <= ((n mod 10) + 1) * 10 <= 100)%N.
Proof.
  intros Hlo Hhi i. subst i. unfold Driver.nth_invocation.
  rewrite txIndex_after_min.
  assert (Driver.increment (N.min (n - 1) Driver.MAX_EXACT) = n) as Hn.
  { unfold Driver.increment. revert Hhi. generalize Driver.MAX_EXACT as m. intros m Hhi.
    destruct (N.ltb_spec (N.min (n - 1) m) m); lia. }
  unfold Driver.run. rewrite Hn.
  pose proof (N.mod_upper_bound n 4 ltac:(lia)) as H4.
  pose proof (N.mod_upper_bound n 10 ltac:(lia)) as H10.
  assert (forall a : list string, length a = 4%nat ->
            a !! N.to_nat (n mod 4) =
              Some (Driver.at_index a (n mod N.of_nat (length a)))) as Hpool.
  { intros a Ha. rewrite Ha. apply at_index_lookup. rewrite Ha. exact H4. }
  assert (10 <= (n mod 10 + 1) * 10 <= 100)%N as [Hge Hle].
  { clear - H10. set (r := (n mod 10)%N) in *. clearbody r. lia. }
  destruct (String.eqb (Driver.bcType env) "fabric-ccp");
    (repeat split;
     [ exact (Hpool Driver.ID eq_refl) | exact (Hpool Driver.owners eq_refl)
     | exact Hge | exact Hle ]).
Qed.

End DriverProperties.

(** * Scenarios

    The theorems above at concrete invocations, and the invocations at which
    the unqualified statements fail. *)

(** ** C1 *)

(** C1, counterexample.  With a store that never fails, a product whose
    identifier is the composite index key of its own type and name is
    created successfully, and reading it back returns the index sentinel,
    which is the JSON encoding of no record. *)
Lemma C1_counterexample :
  let created :=
    initProduct (go := Sample.runtime) Sample.stub0
      [Sample.index_like_id; "n"; "t"; "alice"] Sample.empty_ledger in
  Sample.index_like_id <> "" /\
  fst created = shim.Success None /\
  fst (readProduct Sample.stub0 [Sample.index_like_id] (snd created)) = shim.Success (Some [x00]) /\
  (forall p, json_Marshal (go := Sample.runtime) p <> Ok [x00]).
Proof.
  cbv zeta. split; [discriminate|]. split; [vm_compute; reflexivity|].
  split; [vm_compute; reflexivity|].
  intros p. unfold json_Marshal.
  destruct (json_encodeProduct_brace (go := Sample.runtime) p) as [rest ->].
  discriminate.
Qed.

Lemma C1_witness :
  exists payload,
    json_Marshal (go := Sample.runtime)
      {| ObjectType := "product"; Puid := "p1"; Pname := ToLower (go := Sample.runtime) "Bolt";
         Ptype := ToLower (go := Sample.runtime) "Steel";
         Owner := ToLower (go := Sample.runtime) "Alice" |} = Ok payload /\
    fst (readProduct Sample.stub0 ["p1"] Sample.ledger_p1) = shim.Success (Some payload).
Proof.
  apply (C1_read_back_created_product (go := Sample.runtime)
           Sample.stub0 Sample.stub0 Sample.empty_ledger Sample.ledger_p1 (shim.Success None)
           "p1" "Bolt" "Steel" "Alice").
  - vm_compute; reflexivity.
  - reflexivity.
  - vm_compute; discriminate.
  - reflexivity.
Defined.

(** ** C2 *)

Lemma C2_witness :
  exists l',
    initProduct (go := Sample.runtime) Sample.stub0 ["p1"; "Nut"; "Brass"; "Bob"] Sample.ledger_p1 =
      (shim.Error ("This product already exists: " +:+ "p1"), l') /\
    shim.WorldState l' = shim.WorldState Sample.ledger_p1 /\
    shim.WorldState l' !! "p1" = Some Sample.json_p1.
Proof.
  apply (C2_init_rejects_existing_id (go := Sample.runtime)
           Sample.stub0 Sample.ledger_p1 "p1" "Nut" "Brass" "Bob" Sample.json_p1).
  - discriminate.
  - discriminate.
  - discriminate.
  - discriminate.
  - vm_compute; reflexivity.
Defined.

(** ** C3 *)

Lemma C3_witness :
  exists msg l',
    transferProduct (go := Sample.runtime) Sample.stub0 ["p9"; "Bob"] Sample.ledger_p1 =
      (shim.Error msg, l') /\
    shim.WorldState l' = shim.WorldState Sample.ledger_p1 /\
    (shim.GetStateFails Sample.stub0 "p9" = None -> msg = "Product does not exist").
Proof.
  apply (C3_transfer_of_missing_product_fails (go := Sample.runtime)
           Sample.stub0 Sample.ledger_p1 "p9" "Bob").
  vm_compute; reflexivity.
Defined.

(** ** C4 *)

Lemma C4_witness :
  let l' := snd (transferProduct (go := Sample.runtime) Sample.stub0 ["p1"; "BOB"] Sample.ledger_p1) in
  exists p' json,
    json_Marshal (go := Sample.runtime) p' = Ok json /\
    (Owner p' = ToLower (go := Sample.runtime) "BOB" /\ ObjectType p' = ObjectType Sample.p1 /\
     Puid p' = Puid Sample.p1 /\ Pname p' = Pname Sample.p1 /\ Ptype p' = Ptype Sample.p1) /\
    shim.WorldState l' = <[ "p1" := json ]> (shim.WorldState Sample.ledger_p1) /\
    (forall k, k <> "p1" -> shim.WorldState l' !! k = shim.WorldState Sample.ledger_p1 !! k) /\
    shim.Trace l' =
      shim.Trace Sample.ledger_p1 ++ [shim.ReadState "p1"; shim.WriteState "p1" json].
Proof.
  cbv zeta.
  apply (C4_transfer_rewrites_owner_only (go := Sample.runtime)
           Sample.stub0 Sample.ledger_p1 _ (shim.Success None) "p1" "BOB" Sample.json_p1 Sample.p1).
  - vm_compute; reflexivity.
  - vm_compute; reflexivity.
  - vm_compute; reflexivity.
  - reflexivity.
Defined.

(** ** C5 *)

(** C5, counterexample.  [transferProduct] with three arguments, one more
    than its two, is accepted: the transfer is carried out and the extra
    argument ignored.  [queryProduct] and [getHistoryForProduct] with two
    arguments are served as with one. *)
Lemma C5_counterexample :
  let stub := Sample.reliable "transferProduct" ["p1"; "Bob"; "extra"] in
  let served := Invoke (go := Sample.runtime) stub Sample.ledger_p1 in
  (length (shim.Parameters stub) <> arity OpTransferProduct /\
   fst served = shim.Success None /\
   shim.WorldState (snd served) !! "p1" =
     Some (json_encodeProduct (go := Sample.runtime)
             (mkProduct "product" "p1" "bolt" "steel" "bob"))) /\
  fst (Invoke (go := Sample.runtime) (Sample.reliable "queryProduct" ["{}"; "extra"])
         Sample.ledger_p1) = shim.Success (Some (bytes_of_string "[]")) /\
  fst (Invoke (go := Sample.runtime) (Sample.reliable "getHistoryForProduct" ["p1"; "extra"])
         Sample.ledger_p1) = shim.Success (Some (bytes_of_string "[]")).
Proof.
  cbv zeta. split; [split; [cbn; lia|]; split; vm_compute; reflexivity|].
  split; vm_compute; reflexivity.
Qed.

Lemma C5_witness :
  let stub := Sample.reliable "transferProduct" ["p1"] in
  exists expecting,
    Invoke (go := Sample.runtime) stub Sample.ledger_p1 =
      (shim.Error ("Incorrect number of arguments. Expecting " +:+ expecting),
       Sample.ledger_p1) /\
    handler (go := Sample.runtime) OpTransferProduct stub (shim.Parameters stub)
      Sample.ledger_p1 = Invoke (go := Sample.runtime) stub Sample.ledger_p1.
Proof.
  cbv zeta.
  apply (C5_wrong_argument_count_rejected (go := Sample.runtime) OpTransferProduct
           (Sample.reliable "transferProduct" ["p1"]) Sample.ledger_p1).
  - reflexivity.
  - left. cbn. lia.
Defined.

(** ** C6 *)

(** C6, counterexample.  [transferProduct] with an empty new owner
    succeeds, and the stored record gets the empty owner.  [queryProduct]
    and [getHistoryForProduct] hand an empty argument to the stub as it is,
    and succeed when the stub answers. *)
Lemma C6_counterexample :
  let served :=
    transferProduct (go := Sample.runtime) Sample.stub0 ["p1"; ""] Sample.ledger_p1 in
  (fst served = shim.Success None /\
   shim.WorldState Sample.ledger_p1 !! "p1" = Some Sample.json_p1 /\
   shim.WorldState (snd served) !! "p1" =
     Some (json_encodeProduct (go := Sample.runtime)
             (mkProduct "product" "p1" "bolt" "steel" "")) /\
   shim.WorldState (snd served) <> shim.WorldState Sample.ledger_p1) /\
  fst (queryProduct Sample.stub0 [""] Sample.ledger_p1) =
    shim.Success (Some (bytes_of_string "[]")) /\
  fst (getHistoryForProduct (go := Sample.runtime) Sample.stub0 [""] Sample.ledger_p1) =
    shim.Success (Some (bytes_of_string "[]")).
Proof.
  cbv zeta. split; [|split; vm_compute; reflexivity].
  split; [vm_compute; reflexivity|].
  split; [vm_compute; reflexivity|]. split; [vm_compute; reflexivity|].
  intros Heq. apply (f_equal (fun m : gmap string bytes => m !! "p1")) in Heq.
  vm_compute in Heq. discriminate Heq.
Qed.

Lemma C6_witness :
  exists i ordinal,
    ["p1"; ""; "Steel"; "Alice"] !! i = Some "" /\
    ["1st"; "2nd"; "3rd"; "4th"] !! i = Some ordinal /\
    initProduct (go := Sample.runtime) Sample.stub0 ["p1"; ""; "Steel"; "Alice"] Sample.empty_ledger =
      (shim.Error (ordinal +:+ " argument must be a non-empty string"), Sample.empty_ledger).
Proof.
  apply (C6_init_rejects_empty_argument (go := Sample.runtime)
           Sample.stub0 ["p1"; ""; "Steel"; "Alice"] Sample.empty_ledger).
  - reflexivity.
  - exists 1. reflexivity.
Defined.

(** ** C7 *)

(** C7, counterexample.  Two successful creations on an empty world state
    that leave a single key behind: one with a store that refuses the write
    of the index entry, one with an identifier that is the index key
    itself, where the sentinel replaces the record. *)
Lemma C7_counterexample :
  let refused :=
    initProduct (go := Sample.runtime) (Sample.index_write_fails "initProduct" [])
      ["p1"; "Bolt"; "Steel"; "Alice"] Sample.empty_ledger in
  let collided :=
    initProduct (go := Sample.runtime) Sample.stub0
      [Sample.index_like_id; "n"; "t"; "alice"] Sample.empty_ledger in
  (fst refused = shim.Success None /\
   shim.WorldState (snd refused) = {[ "p1" := Sample.json_p1 ]}) /\
  (fst collided = shim.Success None /\
   shim.WorldState (snd collided) = {[ Sample.index_like_id := [x00] ]}).
Proof.
  cbv zeta. repeat split; vm_compute; reflexivity.
Qed.

Lemma C7_witness :
  let l' := Sample.ledger_p1 in
  shim.WorldState l' =
    <[ Sample.ck_p1 := [x00] ]> (<[ "p1" := Sample.json_p1 ]> (shim.WorldState Sample.empty_ledger)) /\
  shim.WorldState l' !! "p1" = Some Sample.json_p1 /\
  shim.WorldState l' !! Sample.ck_p1 = Some [x00] /\
  (forall k, k <> "p1" -> k <> Sample.ck_p1 ->
     shim.WorldState l' !! k = shim.WorldState Sample.empty_ledger !! k) /\
  shim.Trace l' =
    shim.Trace Sample.empty_ledger ++
      [shim.ReadState "p1"; shim.WriteState "p1" Sample.json_p1; shim.WriteState Sample.ck_p1 [x00]].
Proof.
  cbv zeta.
  apply (C7_init_writes_record_and_index (go := Sample.runtime)
           (Sample.reliable "initProduct" ["p1"; "Bolt"; "Steel"; "Alice"])
           Sample.empty_ledger Sample.ledger_p1 (shim.Success None)
           "p1" "Bolt" "Steel" "Alice" Sample.ck_p1).
  - vm_compute; reflexivity.
  - reflexivity.
  - vm_compute; reflexivity.
  - discriminate.
  - reflexivity.
Defined.

(** ** C8 *)

(** C8, counterexample.  At call number 2^53 + 1 the counter has stopped
    at 2^53: the identifier drawn is the entry of index 0, not the entry of
    index (2^53 + 1) mod 4 = 1. *)
Lemma C8_counterexample :
  let env := Driver.mkEnv "fabric-ccp" 4242 in
  let n := (2 ^ 53 + 1)%N in
  (n mod 4 = 1)%N /\
  Driver.ID !! N.to_nat (n mod 4) = Some "1w2" /\
  Driver.product_id (Driver.nth_invocation env n) = "1q2".
Proof.
  cbv zeta. split; [reflexivity|]. split; [reflexivity|].
  unfold Driver.nth_invocation. rewrite txIndex_after_min.
  vm_compute. reflexivity.
Qed.

Lemma C8_witness :
  let i := Driver.nth_invocation (Driver.mkEnv "fabric-ccp" 4242) 7 in
  Driver.invoked_function i = "initProduct" /\
  ["1q2"; "1w2"; "a12"; "dd4"] !! N.to_nat (7 mod 4) = Some (Driver.product_id i) /\
  ["Alice"; "Bob"; "Claire"; "David"] !! N.to_nat (7 mod 4) = Some (Driver.product_owner i) /\
  Driver.product_type i = Driver.toString (((7 mod 10) + 1) * 10) /\
  (10 <= ((7 mod 10) + 1) * 10 <= 100)%N.
Proof.
  apply (C8_nth_invocation_of_run (Driver.mkEnv "fabric-ccp" 4242) 7).
  - vm_compute; discriminate.
  - vm_compute; discriminate.
Defined.

(** ** C9 *)

Lemma C9_witness :
  Invoke (go := Sample.runtime) (Sample.reliable "deleteProduct" ["p1"]) Sample.ledger_p1 =
    (shim.Error "Received unknown function invocation", Sample.ledger_p1).
Proof.
  apply (C9_unknown_function_rejected (go := Sample.runtime)
           (Sample.reliable "deleteProduct" ["p1"]) Sample.ledger_p1).
  intros []; discriminate.
Defined.

(** ** C10 *)

Lemma C10_witness :
  exists l',
    initProduct (go := Sample.runtime) (Sample.index_write_fails "initProduct" [])
      ["p1"; "Bolt"; "Steel"; "Alice"] Sample.empty_ledger = (shim.Success None, l') /\
    shim.WorldState l' = <[ "p1" := Sample.json_p1 ]> (shim.WorldState Sample.empty_ledger) /\
    (Sample.ck_p1 <> "p1" -> shim.WorldState l' !! Sample.ck_p1 = shim.WorldState Sample.empty_ledger !! Sample.ck_p1).
Proof.
  apply (C10_index_write_error_dropped (go := Sample.runtime)
           (Sample.index_write_fails "initProduct" []) Sample.empty_ledger
           "p1" "Bolt" "Steel" "Alice" Sample.ck_p1 "put state failed").
  - discriminate.
  - discriminate.
  - discriminate.
  - discriminate.
  - reflexivity.
  - reflexivity.
  - vm_compute; reflexivity.
  - reflexivity.
Defined.


(** * Further properties of the chaincode *)

(** Closes a case in which the handler has answered with a failure although
    its response is assumed to be a success. *)
Ltac not_a_success H :=
  unfold shim.ret in H; injection H as <- <-; discriminate.

Section Handlers.

Context `{go : GoRuntime}.

(** ** What the handlers have done when they answer *)

Lemma transferProduct_success stub args l resp l' :
  transferProduct stub args l = (resp, l') ->
  pb.Status resp = shim.OK ->
  exists v p,
    let json := json_encodeProduct (set_Owner p (ToLower (index args 1))) in
    2 <= length args /\
    shim.GetStateFails stub (index args 0) = None /\
    shim.WorldState l !! index args 0 = Some v /\
    json_Unmarshal v zero_product = Ok p /\
    shim.PutStateFails stub (index args 0) json = None /\
    resp = shim.Success None /\
    l' = {| shim.WorldState := <[index args 0 := json]> (shim.WorldState l);
            shim.Trace := shim.Trace l ++
              [shim.ReadState (index args 0); shim.WriteState (index args 0) json] |}.
Proof.
  intros Hrun Hok. unfold transferProduct in Hrun.
  destruct (Nat.ltb_spec (length args) 2) as [Hlt|Hge]; [not_a_success Hrun|].
  unfold shim.bind in Hrun. rewrite GetState_eq in Hrun.
  destruct (shim.GetStateFails stub (index args 0)) eqn:Hget; [not_a_success Hrun|].
  destruct (shim.WorldState l !! index args 0) as [v|] eqn:Hlook; [|not_a_success Hrun].
  destruct (json_Unmarshal v zero_product) as [p|e] eqn:Hparse; [|not_a_success Hrun].
  unfold json_Marshal in Hrun. cbv zeta in Hrun.
  match type of Hrun with context [shim.PutState stub _ ?b _] => set (json := b) in * end.
  destruct (shim.PutStateFails stub (index args 0) json) eqn:Hput.
  { rewrite (PutState_fails _ _ _ _ _ Hput) in Hrun. not_a_success Hrun. }
  rewrite (PutState_ok _ _ _ _ Hput (json_encodeProduct_nonempty _)) in Hrun.
  unfold shim.ret in Hrun. injection Hrun as <- <-.
  exists v, p. cbn zeta. fold json.
  cbn [shim.WorldState shim.Trace shim.record_access].
  rewrite <- app_assoc. now repeat split.
Qed.

(** After a successful creation something is stored under the identifier:
    the record, or the index sentinel when the identifier is the index key. *)
Lemma created_id_is_stored stub l l1 resp (id name type owner : string) :
  initProduct stub [id; name; type; owner] l = (resp, l1) ->
  pb.Status resp = shim.OK ->
  is_Some (shim.WorldState l1 !! id).
Proof.
  intros Hrun Hok.
  destruct (initProduct_success _ _ _ _ _ Hrun Hok)
    as (id' & name' & type' & owner' & ck & Hargs & _ & _ & _ & _ & _ & _ & ->).
  injection Hargs as <- <- <- <-.
  rewrite index_write_WorldState. cbn [shim.WorldState].
  destruct (shim.PutStateFails stub ck [x00]).
  - rewrite lookup_insert_eq. eauto.
  - destruct (decide (ck = id)) as [->|Hne].
    + rewrite lookup_insert_eq. eauto.
    + rewrite lookup_insert_ne, lookup_insert_eq by assumption. eauto.
Qed.

Lemma created_record_is_stored stub l l1 resp (id name type owner : string) :
  initProduct stub [id; name; type; owner] l = (resp, l1) ->
  pb.Status resp = shim.OK ->
  shim.CreateCompositeKey "type~name" [ToLower type; ToLower name] <> Ok id ->
  shim.WorldState l1 !! id =
    Some (json_encodeProduct
            {| ObjectType := "product"; Puid := id; Pname := ToLower name;
               Ptype := ToLower type; Owner := ToLower owner |}).
Proof.
  intros Hrun Hok Hck.
  destruct (initProduct_success _ _ _ _ _ Hrun Hok)
    as (id' & name' & type' & owner' & ck & Hargs & _ & _ & _ & _ & Hck' & _ & ->).
  injection Hargs as <- <- <- <-.
  assert (ck <> id) as Hne by (intros ->; now apply Hck).
  rewrite index_write_WorldState. cbn [shim.WorldState].
  destruct (shim.PutStateFails stub ck [x00]).
  - now rewrite lookup_insert_eq.
  - now rewrite lookup_insert_ne, lookup_insert_eq.
Qed.

(** ** Reading *)

(** X1. Whatever the arguments and the behaviour of the store, an
    invocation of [readProduct], [queryProduct] or [getHistoryForProduct]
    leaves the world state as it was. *)
Theorem X1_reading_operations_keep_world_state stub l :
  shim.Function stub = "readProduct" \/
  shim.Function stub = "queryProduct" \/
  shim.Function stub = "getHistoryForProduct" ->
  shim.WorldState (snd (Invoke stub l)) = shim.WorldState l.
Proof.
  intros [Hf | [Hf | Hf]].
  - rewrite (Invoke_dispatch OpReadProduct stub Hf). apply readProduct_reads_only.
  - rewrite (Invoke_dispatch OpQueryProduct stub Hf). apply queryProduct_reads_only.
  - rewrite (Invoke_dispatch OpGetHistoryForProduct stub Hf).
    apply getHistoryForProduct_reads_only.
Qed.


(** X3. When the store reports no value under [id], [readProduct(id)]
    fails with a message that quotes [id]; when the read itself fails, the
    message quotes [id] too and the error text of the store is dropped. *)
Theorem X3_readProduct_failure_messages stub (id : string) l got :
  fst (shim.GetState stub id l) = got ->
  got = Ok None \/ (exists e, got = Err e) ->
  readProduct stub [id] l =
    (shim.Error (lit "{'Error':'" +:+
                 (match got with
                  | Err _ => "Failed to get state for "
                  | Ok _ => "Marble does not exist: "
                  end) +:+ id +:+ lit "'}"),
     shim.record_access (shim.ReadState id) l).
Proof.
  intros Hgot Hcase. unfold readProduct. cbn [length Nat.eqb negb index nth].
  unfold shim.bind. rewrite GetState_eq in *. cbn [fst] in Hgot. rewrite Hgot.
  destruct Hcase as [-> | [e ->]]; reflexivity.
Qed.

(** ** Failures and the world state *)

(** X4. A [transferProduct] that does not succeed has written nothing: the
    world state is as it was, whatever made it fail. *)
Theorem X4_failed_transfer_changes_nothing stub (args : list string) l :
  pb.Status (fst (transferProduct stub args l)) <> shim.OK ->
  shim.WorldState (snd (transferProduct stub args l)) = shim.WorldState l.
Proof.
  unfold transferProduct.
  destruct (Nat.ltb (length args) 2); [reflexivity|].
  unfold shim.bind. rewrite GetState_eq.
  destruct (shim.GetStateFails stub (index args 0)); [reflexivity|].
  destruct (shim.WorldState l !! index args 0) as [v|]; [|reflexivity].
  destruct (json_Unmarshal v zero_product) as [p|e]; [|reflexivity].
  unfold json_Marshal. cbv zeta.
  match goal with |- context [shim.PutState stub _ ?b _] => set (json := b) end.
  destruct (shim.PutStateFails stub (index args 0) json) eqn:Hput.
  - rewrite (PutState_fails _ _ _ _ _ Hput). reflexivity.
  - rewrite (PutState_ok _ _ _ _ Hput (json_encodeProduct_nonempty _)).
    intros Hfail. now destruct Hfail.
Qed.

(** X5. [initProduct] validates the index attributes only after it has
    written the record: when the lower-cased type or name is refused by
    [CreateCompositeKey] (it holds a zero byte, say), the response is the
    failure of [CreateCompositeKey], and the record is in the world state. *)
Theorem X5_init_fails_after_writing_record
    stub l (id name type owner : string) msg :
  id <> "" -> name <> "" -> type <> "" -> owner <> "" ->
  fst (shim.GetState stub id l) = Ok None ->
  let json := json_encodeProduct
                {| ObjectType := "product"; Puid := id; Pname := ToLower name;
                   Ptype := ToLower type; Owner := ToLower owner |} in
  shim.PutStateFails stub id json = None ->
  shim.CreateCompositeKey "type~name" [ToLower type; ToLower name] = Err msg ->
  exists l',
    initProduct stub [id; name; type; owner] l = (shim.Error msg, l') /\
    shim.WorldState l' = <[id := json]> (shim.WorldState l).
Proof.
  intros Hid Hname Htype Howner Hfree json Hput Hck.
  rewrite GetState_eq in Hfree. cbn [fst] in Hfree.
  unfold initProduct. cbn [length Nat.eqb negb index nth].
  rewrite !nonempty_length by assumption.
  unfold shim.bind. rewrite GetState_eq.
  destruct (shim.GetStateFails stub id); [discriminate|].
  injection Hfree as ->.
  unfold json_Marshal. cbv zeta. cbn [Ptype Pname]. fold json.
  rewrite (PutState_ok _ _ _ _ Hput (json_encodeProduct_nonempty _)), Hck.
  eexists. split; reflexivity.
Qed.

(** X6. That is the only way a failed [initProduct] changes the world
    state: if the response is not a success, either the world state is as
    it was, or the response is the failure of [CreateCompositeKey] and the
    only change is the record written under the first argument. *)
Theorem X6_failed_init_changes_at_most_the_record stub (args : list string) l :
  pb.Status (fst (initProduct stub args l)) <> shim.OK ->
  shim.WorldState (snd (initProduct stub args l)) = shim.WorldState l \/
  exists msg,
    shim.CreateCompositeKey "type~name"
      [ToLower (index args 2); ToLower (index args 1)] = Err msg /\
    fst (initProduct stub args l) = shim.Error msg /\
    shim.WorldState (snd (initProduct stub args l)) =
      <[index args 0 :=
          json_encodeProduct
            {| ObjectType := "product"; Puid := index args 0;
               Pname := ToLower (index args 1); Ptype := ToLower (index args 2);
               Owner := ToLower (index args 3) |}]> (shim.WorldState l).
Proof.
  unfold initProduct.
  destruct (negb (Nat.eqb (length args) 4)); [now left|].
  destruct (Nat.leb (String.length (index args 0)) 0); [now left|].
  destruct (Nat.leb (String.length (index args 1)) 0); [now left|].
  destruct (Nat.leb (String.length (index args 2)) 0); [now left|].
  destruct (Nat.leb (String.length (index args 3)) 0); [now left|].
  unfold shim.bind. rewrite GetState_eq.
  destruct (shim.GetStateFails stub (index args 0)); [now left|].
  destruct (shim.WorldState l !! index args 0); [now left|].
  unfold json_Marshal. cbv zeta. cbn [Ptype Pname].
  match goal with |- context [shim.PutState stub _ ?b _] => set (json := b) end.
  destruct (shim.PutStateFails stub (index args 0) json) eqn:Hput.
  { rewrite (PutState_fails _ _ _ _ _ Hput). now left. }
  rewrite (PutState_ok _ _ _ _ Hput (json_encodeProduct_nonempty _)).
  destruct (shim.CreateCompositeKey "type~name"
              [ToLower (index args 2); ToLower (index args 1)]) as [ck|msg].
  - destruct (shim.PutState stub ck [x00] _) as [dropped l2].
    intros Hfail. now destruct Hfail.
  - intros _. right. exists msg. now repeat split.
Qed.

(** ** Operations one after the other *)

(** X7. Once [initProduct(id, ...)] has succeeded, a further
    [initProduct] with the same [id], whatever its (non-empty) name, type
    and owner, is refused with the message that the product already exists
    and changes nothing, provided its read of the state does not fail. *)
Theorem X7_second_creation_is_refused
    stub stub' l l1 resp (id name type owner name' type' owner' : string) :
  initProduct stub [id; name; type; owner] l = (resp, l1) ->
  pb.Status resp = shim.OK ->
  name' <> "" -> type' <> "" -> owner' <> "" ->
  shim.GetStateFails stub' id = None ->
  exists l2,
    initProduct stub' [id; name'; type'; owner'] l1 =
      (shim.Error ("This product already exists: " +:+ id), l2) /\
    shim.WorldState l2 = shim.WorldState l1.
Proof.
  intros Hrun Hok Hname Htype Howner Hget.
  destruct (created_id_is_stored _ _ _ _ _ _ _ _ Hrun Hok) as [v Hv].
  destruct (initProduct_success _ _ _ _ _ Hrun Hok)
    as (id' & ? & ? & ? & ? & Hargs & (Hid & _) & _).
  injection Hargs as <- _ _ _.
  exists (shim.record_access (shim.ReadState id) l1).
  unfold initProduct. cbn [length Nat.eqb negb index nth].
  rewrite !nonempty_length by assumption.
  unfold shim.bind. rewrite GetState_eq, Hget, Hv. now split.
Qed.

(** X8. Create, transfer, read: after a successful [initProduct] (whose
    index key is not [id] itself) and a successful [transferProduct(id,
    newOwner)], with a JSON parser that reads the created record back as it
    was written, [readProduct(id)] returns the created record with its owner
    replaced by the lower-cased [newOwner]. *)
Theorem X8_create_transfer_read
    stub1 stub2 stub3 l l1 l2 r1 r2 (id name type owner newOwner : string) :
  let created := {| ObjectType := "product"; Puid := id; Pname := ToLower name;
                    Ptype := ToLower type; Owner := ToLower owner |} in
  initProduct stub1 [id; name; type; owner] l = (r1, l1) ->
  pb.Status r1 = shim.OK ->
  shim.CreateCompositeKey "type~name" [ToLower type; ToLower name] <> Ok id ->
  json_Unmarshal (json_encodeProduct created) zero_product = Ok created ->
  transferProduct stub2 [id; newOwner] l1 = (r2, l2) ->
  pb.Status r2 = shim.OK ->
  shim.GetStateFails stub3 id = None ->
  fst (readProduct stub3 [id] l2) =
    shim.Success (Some (json_encodeProduct
      {| ObjectType := "product"; Puid := id; Pname := ToLower name;
         Ptype := ToLower type; Owner := ToLower newOwner |})).
Proof.
  intros created Hinit Hok1 Hck Hparse Htransfer Hok2 Hget.
  pose proof (created_record_is_stored _ _ _ _ _ _ _ _ Hinit Hok1 Hck) as Hstored.
  destruct (transferProduct_success _ _ _ _ _ Htransfer Hok2)
    as (v & p & _ & _ & Hlook & Hp & _ & _ & ->).
  cbn [index nth] in *. fold created in Hstored.
  rewrite Hstored in Hlook. injection Hlook as <-.
  rewrite Hparse in Hp. injection Hp as <-.
  unfold readProduct. cbn [length Nat.eqb negb index nth].
  unfold shim.bind. rewrite GetState_eq, Hget. cbn [shim.WorldState].
  now rewrite lookup_insert_eq.
Qed.

(** X9. Transferring a product twice to the same owner is the same as
    transferring it once: if the record written by the first transfer is
    read back as it was written, a second successful [transferProduct]
    with the same arguments leaves the world state as the first one left
    it. *)
Theorem X9_repeated_transfer_changes_nothing
    stub stub' l l1 l2 r1 r2 (id newOwner : string) v p :
  shim.WorldState l !! id = Some v ->
  json_Unmarshal v zero_product = Ok p ->
  json_Unmarshal (json_encodeProduct (set_Owner p (ToLower newOwner))) zero_product =
    Ok (set_Owner p (ToLower newOwner)) ->
  transferProduct stub [id; newOwner] l = (r1, l1) ->
  pb.Status r1 = shim.OK ->
  transferProduct stub' [id; newOwner] l1 = (r2, l2) ->
  pb.Status r2 = shim.OK ->
  shim.WorldState l2 = shim.WorldState l1.
Proof.
  intros Hv Hp Hback Hfirst Hok1 Hsecond Hok2.
  destruct (transferProduct_success _ _ _ _ _ Hfirst Hok1)
    as (v1 & p1 & _ & _ & Hlook1 & Hp1 & _ & _ & ->).
  cbn [index nth] in *.
  rewrite Hv in Hlook1. injection Hlook1 as <-.
  rewrite Hp in Hp1. injection Hp1 as <-.
  destruct (transferProduct_success _ _ _ _ _ Hsecond Hok2)
    as (v2 & p2 & _ & _ & Hlook2 & Hp2 & _ & _ & ->).
  cbn [index nth shim.WorldState] in *.
  rewrite lookup_insert_eq in Hlook2. injection Hlook2 as <-.
  rewrite Hback in Hp2. injection Hp2 as <-.
  cbn [set_Owner ObjectType Puid Pname Ptype Owner].
  apply insert_insert_eq.
Qed.

(** X14. [initProduct] looks at the name, the type and the owner through
    [strings.ToLower] only: two calls whose (non-empty) names, types and
    owners agree once lower-cased answer alike and leave the same ledger. *)
Theorem X14_init_ignores_case
    stub l (id name type owner name' type' owner' : string) :
  name <> "" -> type <> "" -> owner <> "" ->
  name' <> "" -> type' <> "" -> owner' <> "" ->
  ToLower name = ToLower name' ->
  ToLower type = ToLower type' ->
  ToLower owner = ToLower owner' ->
  initProduct stub [id; name; type; owner] l =
    initProduct stub [id; name'; type'; owner'] l.
Proof.
  intros Hn Ht Ho Hn' Ht' Ho' En Et Eo.
  unfold initProduct. cbn [length Nat.eqb negb index nth].
  rewrite !(nonempty_length name), !(nonempty_length type), !(nonempty_length owner),
    !(nonempty_length name'), !(nonempty_length type'), !(nonempty_length owner')
    by assumption.
  now rewrite En, Et, Eo.
Qed.

End Handlers.

(** ** The answers of queryProduct and getHistoryForProduct *)

Section Answers.

Context `{go : GoRuntime}.

Lemma appended_cons written m members :
  appended written (m :: members) =
    (if written then "," else "") +:+ m +:+ appended true members.
Proof.
  destruct members as [|m' members]; cbn [appended join].
  - now rewrite append_empty_r.
  - reflexivity.
Qed.

Lemma queryResultsLoop_all (kvs : list shim.KV) :
  forall buffer written,
    queryResultsLoop (Ok <$> kvs) buffer written =
      Ok (buffer +:+ appended written (queryMember <$> kvs)).
Proof.
  induction kvs as [|kv kvs IH]; intros buffer written.
  - cbn. now rewrite append_empty_r.
  - cbn [fmap list_fmap queryResultsLoop]. rewrite IH.
    change (queryMember <$> kvs) with (list_fmap _ _ queryMember kvs).
    rewrite appended_cons. unfold queryMember.
    destruct written; rewrite !append_assoc; reflexivity.
Qed.

Lemma queryResultsLoop_error (kvs : list shim.KV) e rest :
  forall buffer written,
    queryResultsLoop ((Ok <$> kvs) ++ Err e :: rest) buffer written = Err e.
Proof.
  induction kvs as [|kv kvs IH]; intros buffer written; [reflexivity|].
  cbn [fmap list_fmap app queryResultsLoop]. apply IH.
Qed.

Lemma historyLoop_all (kms : list shim.KeyModification) :
  forall buffer written,
    historyLoop (Ok <$> kms) buffer written =
      Ok (buffer +:+ appended written (historyMember <$> kms)).
Proof.
  induction kms as [|km kms IH]; intros buffer written.
  - cbn. now rewrite append_empty_r.
  - cbn [fmap list_fmap historyLoop]. rewrite IH.
    change (historyMember <$> kms) with (list_fmap _ _ historyMember kms).
    rewrite appended_cons. unfold historyMember.
    destruct written, (shim.IsDelete km); rewrite !append_assoc; reflexivity.
Qed.

Lemma historyLoop_error (kms : list shim.KeyModification) e rest :
  forall buffer written,
    historyLoop ((Ok <$> kms) ++ Err e :: rest) buffer written = Err e.
Proof.
  induction kms as [|km kms IH]; intros buffer written; [reflexivity|].
  cbn [fmap list_fmap app historyLoop]. apply IH.
Qed.

(** X10. When the query engine answers with the results [kvs] and every
    [Next()] succeeds, [queryProduct] returns a bracketed list with one
    member per result, in the order of the iterator, separated by single
    commas with none before the first or after the last; an empty result
    gives "[]".  A member is the key between quotes and the value as it is
    stored. *)
Theorem X10_query_answer_is_a_list_of_members stub (query : string) l kvs :
  shim.QueryEngine stub query (shim.WorldState l) = Ok (Ok <$> kvs) ->
  queryProduct stub [query] l =
    (shim.Success (Some (bytes_of_string
       ("[" +:+ join "," (queryMember <$> kvs) +:+ "]"))),
     shim.record_access (shim.RichQuery query) l).
Proof.
  intros Hengine. unfold queryProduct. cbn [length Nat.ltb Nat.leb index nth].
  unfold getQueryResultForQueryString, shim.bind, shim.GetQueryResult.
  rewrite Hengine, queryResultsLoop_all.
  destruct kvs as [|kv kvs]; [reflexivity|].
  cbn [appended fmap list_fmap]. unfold shim.ret.
  now rewrite !append_assoc.
Qed.

(** X11. When the query engine refuses the query, or when a [Next()] of its
    iterator fails, [queryProduct] fails with that error as its message:
    the members read before the failure are not returned. *)
Theorem X11_query_error_is_passed_on stub (query : string) l e :
  shim.QueryEngine stub query (shim.WorldState l) = Err e \/
  (exists kvs rest,
     shim.QueryEngine stub query (shim.WorldState l) = Ok ((Ok <$> kvs) ++ Err e :: rest)) ->
  queryProduct stub [query] l =
    (shim.Error e, shim.record_access (shim.RichQuery query) l).
Proof.
  intros Hengine. unfold queryProduct. cbn [length Nat.ltb Nat.leb index nth].
  unfold getQueryResultForQueryString, shim.bind, shim.GetQueryResult.
  destruct Hengine as [-> | (kvs & rest & ->)]; [reflexivity|].
  now rewrite queryResultsLoop_error.
Qed.

(** X12. When the history of the key holds the entries [kms] and every
    [Next()] succeeds, [getHistoryForProduct] returns a bracketed list with
    one member per entry, in the order of the iterator, separated by single
    commas; a member gives the transaction id, the value as it was written,
    or null for a deletion, the timestamp and the deletion flag as the
    strings "true" and "false". *)
Theorem X12_history_answer_is_a_list_of_members stub (key : string) l kms :
  shim.HistoryDB stub key = Ok (Ok <$> kms) ->
  getHistoryForProduct stub [key] l =
    (shim.Success (Some (bytes_of_string
       ("[" +:+ join "," (historyMember <$> kms) +:+ "]"))),
     shim.record_access (shim.HistoryQuery key) l).
Proof.
  intros Hdb. unfold getHistoryForProduct. cbn [length Nat.ltb Nat.leb index nth].
  unfold shim.bind, shim.GetHistoryForKey.
  rewrite Hdb, historyLoop_all.
  destruct kms as [|km kms]; [reflexivity|].
  cbn [appended fmap list_fmap]. unfold shim.ret.
  now rewrite !append_assoc.
Qed.

(** X13. When the history cannot be opened, or when a [Next()] of its
    iterator fails, [getHistoryForProduct] fails with that error as its
    message. *)
Theorem X13_history_error_is_passed_on stub (key : string) l e :
  shim.HistoryDB stub key = Err e \/
  (exists kms rest, shim.HistoryDB stub key = Ok ((Ok <$> kms) ++ Err e :: rest)) ->
  getHistoryForProduct stub [key] l =
    (shim.Error e, shim.record_access (shim.HistoryQuery key) l).
Proof.
  intros Hdb. unfold getHistoryForProduct. cbn [length Nat.ltb Nat.leb index nth].
  unfold shim.bind, shim.GetHistoryForKey.
  destruct Hdb as [-> | (kms & rest & ->)]; [reflexivity|].
  now rewrite historyLoop_error.
Qed.

End Answers.

(** ** What an invocation can touch *)

Section Footprint.

Context `{go : GoRuntime}.

Lemma composite_key_in_namespace objectType attributes ck :
  shim.CreateCompositeKey objectType attributes = Ok ck ->
  in_composite_namespace ck = true.
Proof.
  intros Hck. destruct (CreateCompositeKey_namespace _ _ _ Hck) as [rest ->].
  reflexivity.
Qed.

Lemma initProduct_footprint stub args l (k : string) :
  k <> index args 0 ->
  in_composite_namespace k = false ->
  shim.WorldState (snd (initProduct stub args l)) !! k = shim.WorldState l !! k.
Proof.
  intros Hk Hplain. unfold initProduct.
  destruct (negb (Nat.eqb (length args) 4)); [reflexivity|].
  destruct (Nat.leb (String.length (index args 0)) 0); [reflexivity|].
  destruct (Nat.leb (String.length (index args 1)) 0); [reflexivity|].
  destruct (Nat.leb (String.length (index args 2)) 0); [reflexivity|].
  destruct (Nat.leb (String.length (index args 3)) 0); [reflexivity|].
  unfold shim.bind. rewrite GetState_eq.
  destruct (shim.GetStateFails stub (index args 0)); [reflexivity|].
  destruct (shim.WorldState l !! index args 0); [reflexivity|].
  unfold json_Marshal. cbv zeta. cbn [Ptype Pname].
  match goal with |- context [shim.PutState stub _ ?b _] => set (json := b) end.
  destruct (shim.PutStateFails stub (index args 0) json) eqn:Hput.
  { rewrite (PutState_fails _ _ _ _ _ Hput). reflexivity. }
  rewrite (PutState_ok _ _ _ _ Hput (json_encodeProduct_nonempty _)).
  destruct (shim.CreateCompositeKey "type~name"
              [ToLower (index args 2); ToLower (index args 1)]) as [ck|msg] eqn:Hck.
  - assert (k <> ck) as Hne.
    { intros ->. rewrite (composite_key_in_namespace _ _ _ Hck) in Hplain. discriminate. }
    match goal with |- context [shim.PutState stub ck [x00] ?l2] =>
      pose proof (index_write_WorldState stub ck l2) as Hidx;
      destruct (shim.PutState stub ck [x00] l2) as [dropped l3] end.
    cbn [snd shim.ret] in *. unfold shim.ret. cbn [snd]. rewrite Hidx.
    cbn [shim.WorldState].
    destruct (shim.PutStateFails stub ck [x00]).
    + now rewrite lookup_insert_ne by congruence.
    + now rewrite !lookup_insert_ne by congruence.
  - cbn [snd shim.ret shim.WorldState]. unfold shim.ret. cbn [snd shim.WorldState].
    now rewrite lookup_insert_ne by congruence.
Qed.

Lemma transferProduct_footprint stub args l (k : string) :
  k <> index args 0 ->
  shim.WorldState (snd (transferProduct stub args l)) !! k = shim.WorldState l !! k.
Proof.
  intros Hk. unfold transferProduct.
  destruct (Nat.ltb (length args) 2); [reflexivity|].
  unfold shim.bind. rewrite GetState_eq.
  destruct (shim.GetStateFails stub (index args 0)); [reflexivity|].
  destruct (shim.WorldState l !! index args 0) as [v|]; [|reflexivity].
  destruct (json_Unmarshal v zero_product) as [p|e]; [|reflexivity].
  unfold json_Marshal. cbv zeta.
  match goal with |- context [shim.PutState stub _ ?b _] => set (json := b) end.
  destruct (shim.PutStateFails stub (index args 0) json) eqn:Hput.
  - rewrite (PutState_fails _ _ _ _ _ Hput). reflexivity.
  - rewrite (PutState_ok _ _ _ _ Hput (json_encodeProduct_nonempty _)).
    unfold shim.ret. cbn [snd shim.WorldState].
    now rewrite lookup_insert_ne by congruence.
Qed.

(** X15. An invocation, whatever its function, its arguments and the
    behaviour of the store, leaves every key untouched that is neither its
    first argument nor a key of the composite-key namespace (a key starting
    with the byte 0x00): other products keep their records. *)
Theorem X15_invocation_leaves_other_products_alone stub l (k : string) :
  k <> index (shim.Parameters stub) 0 ->
  in_composite_namespace k = false ->
  shim.WorldState (snd (Invoke stub l)) !! k = shim.WorldState l !! k.
Proof.
  intros Hk Hplain. unfold Invoke, shim.GetFunctionAndParameters.
  destruct (String.eqb (shim.Function stub) "initProduct");
    [now apply initProduct_footprint|].
  destruct (String.eqb (shim.Function stub) "transferProduct");
    [now apply transferProduct_footprint|].
  destruct (String.eqb (shim.Function stub) "readProduct");
    [now rewrite readProduct_reads_only|].
  destruct (String.eqb (shim.Function stub) "queryProduct");
    [now rewrite queryProduct_reads_only|].
  destruct (String.eqb (shim.Function stub) "getHistoryForProduct");
    [now rewrite getHistoryForProduct_reads_only|].
  reflexivity.
Qed.

End Footprint.

(** ** How many accesses an invocation makes *)

(** Closes a case of the count of accesses once the handler has answered. *)
Ltac count_accesses :=
  unfold shim.ret; cbn [snd shim.Trace shim.record_access];
  first
    [ exists []; split; [symmetry; apply app_nil_r | cbn; lia]
    | rewrite <- ?app_assoc; eexists; split; [reflexivity | cbn; lia] ].

Section Accesses.

Context `{go : GoRuntime}.

Lemma initProduct_accesses stub args l :
  within_bounds (shim.Trace l) (shim.Trace (snd (initProduct stub args l))).
Proof.
  unfold within_bounds, initProduct.
  destruct (negb (Nat.eqb (length args) 4)); [count_accesses|].
  destruct (Nat.leb (String.length (index args 0)) 0); [count_accesses|].
  destruct (Nat.leb (String.length (index args 1)) 0); [count_accesses|].
  destruct (Nat.leb (String.length (index args 2)) 0); [count_accesses|].
  destruct (Nat.leb (String.length (index args 3)) 0); [count_accesses|].
  unfold shim.bind. rewrite GetState_eq.
  destruct (shim.GetStateFails stub (index args 0)); [count_accesses|].
  destruct (shim.WorldState l !! index args 0); [count_accesses|].
  unfold json_Marshal. cbv zeta. cbn [Ptype Pname].
  match goal with |- context [shim.PutState stub _ ?b _] => set (json := b) end.
  destruct (shim.PutStateFails stub (index args 0) json) eqn:Hput.
  { rewrite (PutState_fails _ _ _ _ _ Hput). count_accesses. }
  rewrite (PutState_ok _ _ _ _ Hput (json_encodeProduct_nonempty _)).
  destruct (shim.CreateCompositeKey "type~name"
              [ToLower (index args 2); ToLower (index args 1)]) as [ck|msg];
    [|count_accesses].
  match goal with |- context [shim.PutState stub ck [x00] ?l2] =>
    pose proof (index_write_Trace stub ck l2) as Hidx;
    destruct (shim.PutState stub ck [x00] l2) as [dropped l3] end.
  cbn [snd] in Hidx. unfold shim.ret. cbn [snd]. rewrite Hidx.
  count_accesses.
Qed.

Lemma transferProduct_accesses stub args l :
  within_bounds (shim.Trace l) (shim.Trace (snd (transferProduct stub args l))).
Proof.
  unfold within_bounds, transferProduct.
  destruct (Nat.ltb (length args) 2); [count_accesses|].
  unfold shim.bind. rewrite GetState_eq.
  destruct (shim.GetStateFails stub (index args 0)); [count_accesses|].
  destruct (shim.WorldState l !! index args 0) as [v|]; [|count_accesses].
  destruct (json_Unmarshal v zero_product) as [p|e]; [|count_accesses].
  unfold json_Marshal. cbv zeta.
  match goal with |- context [shim.PutState stub _ ?b _] => set (json := b) end.
  destruct (shim.PutStateFails stub (index args 0) json) eqn:Hput.
  - rewrite (PutState_fails _ _ _ _ _ Hput). count_accesses.
  - rewrite (PutState_ok _ _ _ _ Hput (json_encodeProduct_nonempty _)). count_accesses.
Qed.

Lemma readProduct_accesses stub args l :
  within_bounds (shim.Trace l) (shim.Trace (snd (readProduct stub args l))).
Proof.
  unfold within_bounds, readProduct.
  destruct (negb (Nat.eqb (length args) 1)); [count_accesses|].
  unfold shim.bind. rewrite GetState_eq.
  destruct (shim.GetStateFails stub (index args 0)); [count_accesses|].
  destruct (shim.WorldState l !! index args 0); count_accesses.
Qed.

Lemma queryProduct_accesses stub args l :
  within_bounds (shim.Trace l) (shim.Trace (snd (queryProduct stub args l))).
Proof.
  unfold within_bounds, queryProduct.
  destruct (Nat.ltb (length args) 1); [count_accesses|].
  unfold getQueryResultForQueryString, shim.bind, shim.GetQueryResult.
  destruct (shim.QueryEngine stub (index args 0) (shim.WorldState l)) as [it|e];
    [|count_accesses].
  destruct (queryResultsLoop it "[" false); count_accesses.
Qed.

Lemma getHistoryForProduct_accesses stub args l :
  within_bounds (shim.Trace l) (shim.Trace (snd (getHistoryForProduct stub args l))).
Proof.
  unfold within_bounds, getHistoryForProduct.
  destruct (Nat.ltb (length args) 1); [count_accesses|].
  unfold shim.bind, shim.GetHistoryForKey.
  destruct (shim.HistoryDB stub (index args 0)) as [it|e]; [|count_accesses].
  destruct (historyLoop it "[" false); count_accesses.
Qed.

(** X16. An invocation only adds to the trace of state accesses, and adds
    little: at most three accesses, of which at most two are writes,
    whatever the function, the arguments, the size of the world state and
    the behaviour of the store. *)
Theorem X16_invocation_makes_at_most_three_accesses stub l :
  exists accesses,
    shim.Trace (snd (Invoke stub l)) = shim.Trace l ++ accesses /\
    length accesses <= 3 /\
    length (List.filter is_write accesses) <= 2.
Proof.
  unfold Invoke, shim.GetFunctionAndParameters.
  destruct (String.eqb (shim.Function stub) "initProduct");
    [apply initProduct_accesses|].
  destruct (String.eqb (shim.Function stub) "transferProduct");
    [apply transferProduct_accesses|].
  destruct (String.eqb (shim.Function stub) "readProduct");
    [apply readProduct_accesses|].
  destruct (String.eqb (shim.Function stub) "queryProduct");
    [apply queryProduct_accesses|].
  destruct (String.eqb (shim.Function stub) "getHistoryForProduct");
    [apply getHistoryForProduct_accesses|].
  count_accesses.
Qed.

End Accesses.

(** * Further properties of the benchmark driver *)


Section DriverRuns.

Variable env : Driver.Env.

Lemma increment_before (n : N) :
  (1 <= n)%N -> (n <= Driver.MAX_EXACT)%N -> Driver.increment (n - 1) = n.
Proof.
  unfold Driver.increment. generalize Driver.MAX_EXACT as m. intros m Hlo Hhi.
  destruct (N.ltb_spec (n - 1) m); lia.
Qed.

(** Within the exact range the [n]-th invocation is built from [n]. *)
Lemma nth_invocation_in_range (n : N) :
  (1 <= n)%N -> (n <= Driver.MAX_EXACT)%N ->
  Driver.nth_invocation env n =
    Driver.mkInvocation "supply" "v1"
      (let productName :=
         "product_" +:+ Driver.toString n +:+ "_" +:+ Driver.toString (Driver.pid env) in
       let productID := Driver.at_index Driver.ID (n mod 4) in
       let productType := Driver.toString (((n mod 10) + 1) * 10) in
       let productOwner := Driver.at_index Driver.owners (n mod 4) in
       if String.eqb (Driver.bcType env) "fabric-ccp" then
         Driver.CcpArgs "initProduct" [productID; productName; productType; productOwner]
       else
         Driver.VerbArgs "initProduct" productName productID productType productOwner)
      30.
Proof.
  intros Hlo Hhi. unfold Driver.nth_invocation.
  rewrite txIndex_after_min.
  replace (N.min (n - 1) Driver.MAX_EXACT) with (n - 1)%N by lia.
  unfold Driver.run. now rewrite (increment_before n Hlo Hhi).
Qed.

(** X17. The counter of the driver never decreases and never exceeds 2^53:
    it counts the calls up to 2^53 and then stays there. *)
Theorem X17_counter_counts_then_saturates (k : N) :
  (Driver.txIndex_after env k <= Driver.txIndex_after env (k + 1))%N /\
  (Driver.txIndex_after env k <= Driver.MAX_EXACT)%N /\
  ((k <= Driver.MAX_EXACT)%N -> Driver.txIndex_after env k = k) /\
  ((Driver.MAX_EXACT <= k)%N -> Driver.txIndex_after env k = Driver.MAX_EXACT).
Proof.
  rewrite !txIndex_after_min. generalize Driver.MAX_EXACT as m. intros m. lia.
Qed.

(** X18. The invocations repeat: identifier and owner come back every 4
    calls and the type every 10 calls, so that identifier, type and owner
    together come back every 20 calls (within the exact range of the
    counter). *)
Theorem X18_invocations_repeat (n : N) :
  (1 <= n)%N -> (n + 20 <= Driver.MAX_EXACT)%N ->
  let i := Driver.nth_invocation env in
  (Driver.product_id (i (n + 4)%N) = Driver.product_id (i n) /\
   Driver.product_owner (i (n + 4)%N) = Driver.product_owner (i n)) /\
  Driver.product_type (i (n + 10)%N) = Driver.product_type (i n) /\
  (Driver.product_id (i (n + 20)%N) = Driver.product_id (i n) /\
   Driver.product_type (i (n + 20)%N) = Driver.product_type (i n) /\
   Driver.product_owner (i (n + 20)%N) = Driver.product_owner (i n)).
Proof.
  intros Hlo Hhi i. subst i.
  rewrite !nth_invocation_in_range by lia.
  assert ((n + 4) mod 4 = n mod 4)%N as E4
    by (replace (n + 4)%N with (n + 1 * 4)%N by lia; apply N.Div0.mod_add).
  assert ((n + 10) mod 10 = n mod 10)%N as E10
    by (replace (n + 10)%N with (n + 1 * 10)%N by lia; apply N.Div0.mod_add).
  assert ((n + 20) mod 4 = n mod 4)%N as E20
    by (replace (n + 20)%N with (n + 5 * 4)%N by lia; apply N.Div0.mod_add).
  assert ((n + 20) mod 10 = n mod 10)%N as E20'
    by (replace (n + 20)%N with (n + 2 * 10)%N by lia; apply N.Div0.mod_add).
  cbv zeta. rewrite E4, E10, E20, E20'.
  unfold Driver.product_id, Driver.product_type, Driver.product_owner.
  cbn [Driver.args].
  destruct (String.eqb (Driver.bcType env) "fabric-ccp"); repeat split.
Qed.

(** ** Product names *)

Lemma toString_inj (n m : N) : Driver.toString n = Driver.toString m -> n = m.
Proof.
  unfold Driver.toString. intros E.
  assert (forall x : N, N.to_uint x <> Decimal.Nil) as Hnonnil.
  { intros [|p]; [discriminate|]. apply DecimalPos.Unsigned.to_uint_nonnil. }
  apply (f_equal NilZero.uint_of_string) in E.
  rewrite !NilZero.usu in E by apply Hnonnil.
  injection E as E. now apply DecimalN.Unsigned.to_uint_inj.
Qed.

Lemma toString_nonempty (n : N) : Driver.toString n <> "".
Proof.
  unfold Driver.toString, NilZero.string_of_uint.
  destruct (N.to_uint n); discriminate.
Qed.

Lemma length_append (s t : string) :
  String.length (s +:+ t) = String.length s + String.length t.
Proof.
  induction s as [|c s IH]; [reflexivity|].
  change (S (String.length (s +:+ t)) = S (String.length s + String.length t)).
  now f_equal.
Qed.

Lemma append_cancel_r (t : string) :
  forall s s', s +:+ t = s' +:+ t -> s = s'.
Proof.
  induction s as [|c s IH]; intros [|c' s'] E.
  - reflexivity.
  - apply (f_equal String.length) in E. rewrite !length_append in E.
    cbn [String.length] in E. lia.
  - apply (f_equal String.length) in E. rewrite !length_append in E.
    cbn [String.length] in E. lia.
  - change (String c (s +:+ t) = String c' (s' +:+ t)) in E.
    injection E as -> E. f_equal. now apply IH.
Qed.

Lemma product_name_in_range (n : N) :
  (1 <= n)%N -> (n <= Driver.MAX_EXACT)%N ->
  product_name (Driver.nth_invocation env n) =
    "product_" +:+ Driver.toString n +:+ "_" +:+ Driver.toString (Driver.pid env).
Proof.
  intros Hlo Hhi. rewrite nth_invocation_in_range by assumption.
  unfold product_name. cbn [Driver.args].
  now destruct (String.eqb (Driver.bcType env) "fabric-ccp").
Qed.

(** X19. Two different calls of [run()] in one process give their products
    different names (within the exact range of the counter), while the
    identifiers are only four. *)
Theorem X19_product_names_differ (n m : N) :
  (1 <= n)%N -> (n <= Driver.MAX_EXACT)%N ->
  (1 <= m)%N -> (m <= Driver.MAX_EXACT)%N ->
  n <> m ->
  product_name (Driver.nth_invocation env n) <>
    product_name (Driver.nth_invocation env m).
Proof.
  intros Hn1 Hn2 Hm1 Hm2 Hne E.
  rewrite !product_name_in_range in E by assumption.
  change ("product_" +:+ ?s) with
    (String "p" (String "r" (String "o" (String "d" (String "u" (String "c"
       (String "t" (String "_" s)))))))) in E.
  injection E as E.
  rewrite <- !append_assoc in E.
  apply append_cancel_r, append_cancel_r, toString_inj in E. contradiction.
Qed.

End DriverRuns.

(** * The driver against the chaincode *)

Section DriverAgainstChaincode.

Context `{go : GoRuntime}.

Variable env : Driver.Env.

Lemma owner_nonempty (r : N) : Driver.at_index Driver.owners r <> "".
Proof.
  unfold Driver.at_index, Driver.owners.
  destruct (N.to_nat r) as [|[|[|[|[|k]]]]]; discriminate.
Qed.

(** X20. The pool of identifiers is used up after four creations: when the
    [initProduct] built by call [n] of the driver (for 'fabric-ccp') has
    succeeded, the [initProduct] built by call [n + 4] names the same
    identifier and is refused with the message that the product already
    exists, provided its read of the state does not fail. *)
Theorem X20_every_fifth_call_is_refused
    stub stub' l l1 resp (n : N) (a a' : list string) :
  (1 <= n)%N -> (n + 4 <= Driver.MAX_EXACT)%N ->
  chaincodeArguments (Driver.nth_invocation env n) = Some a ->
  chaincodeArguments (Driver.nth_invocation env (n + 4)) = Some a' ->
  initProduct stub a l = (resp, l1) ->
  pb.Status resp = shim.OK ->
  shim.GetStateFails stub' (Driver.product_id (Driver.nth_invocation env n)) = None ->
  exists l2,
    initProduct stub' a' l1 =
      (shim.Error ("This product already exists: " +:+
                   Driver.product_id (Driver.nth_invocation env n)), l2) /\
    shim.WorldState l2 = shim.WorldState l1.
Proof.
  intros Hlo Hhi Ha Ha' Hrun Hok Hget.
  rewrite nth_invocation_in_range in Ha, Ha', Hget |- * by lia.
  assert ((n + 4) mod 4 = n mod 4)%N as E4
    by (replace (n + 4)%N with (n + 1 * 4)%N by lia; apply N.Div0.mod_add).
  unfold chaincodeArguments, Driver.product_id in *. cbn [Driver.args] in *.
  cbv zeta in *. rewrite E4 in Ha'.
  destruct (String.eqb (Driver.bcType env) "fabric-ccp"); [|discriminate].
  injection Ha as <-. injection Ha' as <-. cbn [nth] in *.
  destruct (created_id_is_stored _ _ _ _ _ _ _ _ Hrun Hok) as [v Hv].
  destruct (initProduct_success _ _ _ _ _ Hrun Hok)
    as (id' & ? & ? & ? & ? & Hargs & (Hid & _) & _).
  injection Hargs as <- _ _ _.
  eexists. unfold initProduct. cbn [length Nat.eqb negb index nth].
  rewrite (nonempty_length _ Hid).
  rewrite (nonempty_length ("product_" +:+ _)) by discriminate.
  rewrite (nonempty_length (Driver.toString _)) by apply toString_nonempty.
  rewrite (nonempty_length (Driver.at_index Driver.owners _)) by apply owner_nonempty.
  unfold shim.bind. rewrite GetState_eq, Hget, Hv. now split.
Qed.

End DriverAgainstChaincode.

(** * When the writing operations succeed *)

Section Success.

Context `{go : GoRuntime}.

(** X21. [initProduct] succeeds exactly when it is given four non-empty
    arguments, the store reports no value under the first, accepts the
    write of the record, and the lower-cased type and name make a valid
    composite key; the write of the index entry plays no part. *)
Theorem X21_init_succeeds_iff stub (args : list string) l :
  pb.Status (fst (initProduct stub args l)) = shim.OK <->
  exists id name type owner,
    args = [id; name; type; owner] /\
    (id <> "" /\ name <> "" /\ type <> "" /\ owner <> "") /\
    fst (shim.GetState stub id l) = Ok None /\
    shim.PutStateFails stub id
      (json_encodeProduct
         {| ObjectType := "product"; Puid := id; Pname := ToLower name;
            Ptype := ToLower type; Owner := ToLower owner |}) = None /\
    exists ck, shim.CreateCompositeKey "type~name" [ToLower type; ToLower name] = Ok ck.
Proof.
  split.
  - intros Hok.
    destruct (initProduct stub args l) as [resp l'] eqn:Hrun. cbn [fst] in Hok.
    destruct (initProduct_success _ _ _ _ _ Hrun Hok)
      as (id & name & type & owner & ck & Hargs & Hne & Hget & Hlook & Hput & Hck & _).
    exists id, name, type, owner. rewrite GetState_eq, Hget, Hlook.
    repeat split; try tauto. now exists ck.
  - intros (id & name & type & owner & -> & (Hid & Hname & Htype & Howner)
            & Hfree & Hput & ck & Hck).
    rewrite GetState_eq in Hfree. cbn [fst] in Hfree.
    unfold initProduct. cbn [length Nat.eqb negb index nth].
    rewrite !nonempty_length by assumption.
    unfold shim.bind. rewrite GetState_eq.
    destruct (shim.GetStateFails stub id); [discriminate|].
    injection Hfree as ->.
    unfold json_Marshal. cbv zeta. cbn [Ptype Pname].
    rewrite (PutState_ok _ _ _ _ Hput (json_encodeProduct_nonempty _)), Hck.
    now destruct (shim.PutState stub ck [x00] _).
Qed.

(** X22. [transferProduct] succeeds exactly when it is given at least two
    arguments, the store reports a value under the first that parses as a
    product, and accepts the write of that product with its owner
    replaced; the new owner itself is not examined, it may be empty. *)
Theorem X22_transfer_succeeds_iff stub (args : list string) l :
  pb.Status (fst (transferProduct stub args l)) = shim.OK <->
  2 <= length args /\
  exists v p,
    fst (shim.GetState stub (index args 0) l) = Ok (Some v) /\
    json_Unmarshal v zero_product = Ok p /\
    shim.PutStateFails stub (index args 0)
      (json_encodeProduct (set_Owner p (ToLower (index args 1)))) = None.
Proof.
  split.
  - intros Hok.
    destruct (transferProduct stub args l) as [resp l'] eqn:Hrun. cbn [fst] in Hok.
    destruct (transferProduct_success _ _ _ _ _ Hrun Hok)
      as (v & p & Hlen & Hget & Hlook & Hp & Hput & _).
    split; [exact Hlen|]. exists v, p. rewrite GetState_eq, Hget, Hlook.
    now repeat split.
  - intros (Hlen & v & p & Hstored & Hp & Hput).
    rewrite GetState_eq in Hstored. cbn [fst] in Hstored.
    unfold transferProduct.
    destruct (Nat.ltb_spec (length args) 2) as [Hlt|_]; [lia|].
    unfold shim.bind. rewrite GetState_eq.
    destruct (shim.GetStateFails stub (index args 0)); [discriminate|].
    injection Hstored as ->. rewrite Hp.
    unfold json_Marshal. cbv zeta.
    now rewrite (PutState_ok _ _ _ _ Hput (json_encodeProduct_nonempty _)).
Qed.

End Success.

(** * Scenarios for the further properties *)

Lemma X1_witness :
  shim.WorldState
    (snd (Invoke (go := Sample.runtime)
            (Sample.reliable "getHistoryForProduct" ["p1"]) Sample.ledger_p1)) =
  shim.WorldState Sample.ledger_p1.
Proof.
  apply (X1_reading_operations_keep_world_state (go := Sample.runtime)
           (Sample.reliable "getHistoryForProduct" ["p1"]) Sample.ledger_p1).
  right. right. reflexivity.
Defined.

Lemma X3_witness :
  readProduct (Catalog.unreadable "ledger is closed") ["p1"] Sample.ledger_p1 =
    (shim.Error (lit "{'Error':'" +:+ "Failed to get state for " +:+ "p1" +:+ lit "'}"),
     shim.record_access (shim.ReadState "p1") Sample.ledger_p1).
Proof.
  apply (X3_readProduct_failure_messages (Catalog.unreadable "ledger is closed")
           "p1" Sample.ledger_p1 (Err "ledger is closed")).
  - reflexivity.
  - right. exists "ledger is closed". reflexivity.
Defined.

Lemma X4_witness :
  shim.WorldState
    (snd (transferProduct (go := Sample.runtime) Sample.stub0 ["p9"; "Bob"] Sample.ledger_p1)) =
  shim.WorldState Sample.ledger_p1.
Proof.
  apply (X4_failed_transfer_changes_nothing (go := Sample.runtime)
           Sample.stub0 ["p9"; "Bob"] Sample.ledger_p1).
  vm_compute. discriminate.
Defined.

Lemma X5_witness :
  exists l',
    initProduct (go := Sample.runtime) Sample.stub0
      ["p3"; Catalog.name_with_zero; "Steel"; "Alice"] Sample.empty_ledger =
      (shim.Error
         "U+0000 and U+10FFFF are not allowed in the input attribute of a composite key",
       l') /\
    shim.WorldState l' =
      <[ "p3" := json_encodeProduct (go := Sample.runtime)
                   {| ObjectType := "product"; Puid := "p3";
                      Pname := ToLower (go := Sample.runtime) Catalog.name_with_zero;
                      Ptype := ToLower (go := Sample.runtime) "Steel";
                      Owner := ToLower (go := Sample.runtime) "Alice" |} ]>
        (shim.WorldState Sample.empty_ledger).
Proof.
  apply (X5_init_fails_after_writing_record (go := Sample.runtime)
           Sample.stub0 Sample.empty_ledger "p3" Catalog.name_with_zero "Steel" "Alice").
  - discriminate.
  - discriminate.
  - discriminate.
  - discriminate.
  - reflexivity.
  - reflexivity.
  - vm_compute; reflexivity.
Defined.

Lemma X6_witness :
  let served :=
    initProduct (go := Sample.runtime) Sample.stub0
      ["p1"; "Nut"; "Brass"; "Bob"] Sample.ledger_p1 in
  shim.WorldState (snd served) = shim.WorldState Sample.ledger_p1 \/
  exists msg,
    shim.CreateCompositeKey "type~name"
      [ToLower (go := Sample.runtime) "Brass"; ToLower (go := Sample.runtime) "Nut"] = Err msg /\
    fst served = shim.Error msg /\
    shim.WorldState (snd served) =
      <[ "p1" := json_encodeProduct (go := Sample.runtime)
                   {| ObjectType := "product"; Puid := "p1";
                      Pname := ToLower (go := Sample.runtime) "Nut";
                      Ptype := ToLower (go := Sample.runtime) "Brass";
                      Owner := ToLower (go := Sample.runtime) "Bob" |} ]>
        (shim.WorldState Sample.ledger_p1).
Proof.
  apply (X6_failed_init_changes_at_most_the_record (go := Sample.runtime)
           Sample.stub0 ["p1"; "Nut"; "Brass"; "Bob"] Sample.ledger_p1).
  vm_compute. discriminate.
Defined.

Lemma X7_witness :
  exists l2,
    initProduct (go := Sample.runtime) Sample.stub0
      ["p1"; "Nut"; "Brass"; "Bob"] Sample.ledger_p1 =
      (shim.Error ("This product already exists: " +:+ "p1"), l2) /\
    shim.WorldState l2 = shim.WorldState Sample.ledger_p1.
Proof.
  apply (X7_second_creation_is_refused (go := Sample.runtime)
           Sample.stub0 Sample.stub0 Sample.empty_ledger Sample.ledger_p1
           (shim.Success None) "p1" "Bolt" "Steel" "Alice" "Nut" "Brass" "Bob").
  - vm_compute; reflexivity.
  - reflexivity.
  - discriminate.
  - discriminate.
  - discriminate.
  - reflexivity.
Defined.

Lemma X8_witness :
  fst (readProduct Sample.stub0 ["p1"]
         (snd (transferProduct (go := Sample.runtime) Sample.stub0 ["p1"; "BOB"]
                 Sample.ledger_p1))) =
    shim.Success (Some (json_encodeProduct (go := Sample.runtime)
      {| ObjectType := "product"; Puid := "p1";
         Pname := ToLower (go := Sample.runtime) "Bolt";
         Ptype := ToLower (go := Sample.runtime) "Steel";
         Owner := ToLower (go := Sample.runtime) "BOB" |})).
Proof.
  apply (X8_create_transfer_read (go := Sample.runtime)
           Sample.stub0 Sample.stub0 Sample.stub0
           Sample.empty_ledger Sample.ledger_p1 _ (shim.Success None) (shim.Success None)
           "p1" "Bolt" "Steel" "Alice" "BOB").
  - vm_compute; reflexivity.
  - reflexivity.
  - vm_compute; discriminate.
  - vm_compute; reflexivity.
  - vm_compute; reflexivity.
  - reflexivity.
  - reflexivity.
Defined.

Lemma X9_witness :
  let once :=
    snd (transferProduct (go := Sample.runtime) Sample.stub0 ["p1"; "BOB"] Sample.ledger_p1) in
  let twice :=
    snd (transferProduct (go := Sample.runtime) Sample.stub0 ["p1"; "BOB"] once) in
  shim.WorldState twice = shim.WorldState once.
Proof.
  cbv zeta.
  apply (X9_repeated_transfer_changes_nothing (go := Sample.runtime)
           Sample.stub0 Sample.stub0 Sample.ledger_p1 _ _
           (shim.Success None) (shim.Success None) "p1" "BOB" Sample.json_p1 Sample.p1).
  - vm_compute; reflexivity.
  - vm_compute; reflexivity.
  - vm_compute; reflexivity.
  - vm_compute; reflexivity.
  - reflexivity.
  - vm_compute; reflexivity.
  - reflexivity.
Defined.

Lemma X10_witness :
  queryProduct (Catalog.answering [Catalog.kv_p1; Catalog.kv_p2] []) ["{}"] Sample.ledger_p1 =
    (shim.Success (Some (bytes_of_string
       ("[" +:+ join "," (queryMember <$> [Catalog.kv_p1; Catalog.kv_p2]) +:+ "]"))),
     shim.record_access (shim.RichQuery "{}") Sample.ledger_p1).
Proof.
  apply (X10_query_answer_is_a_list_of_members
           (Catalog.answering [Catalog.kv_p1; Catalog.kv_p2] []) "{}" Sample.ledger_p1
           [Catalog.kv_p1; Catalog.kv_p2]).
  reflexivity.
Defined.

Lemma X11_witness :
  queryProduct (Catalog.breaking "iterator closed" [Catalog.kv_p1] []) ["{}"] Sample.ledger_p1 =
    (shim.Error "iterator closed", shim.record_access (shim.RichQuery "{}") Sample.ledger_p1).
Proof.
  apply (X11_query_error_is_passed_on
           (Catalog.breaking "iterator closed" [Catalog.kv_p1] []) "{}" Sample.ledger_p1
           "iterator closed").
  right. exists [Catalog.kv_p1], []. reflexivity.
Defined.

Lemma X12_witness :
  getHistoryForProduct (go := Sample.runtime)
    (Catalog.answering [] [Catalog.km_created; Catalog.km_deleted]) ["p1"] Sample.ledger_p1 =
    (shim.Success (Some (bytes_of_string
       ("[" +:+ join "," (historyMember (go := Sample.runtime) <$>
                            [Catalog.km_created; Catalog.km_deleted]) +:+ "]"))),
     shim.record_access (shim.HistoryQuery "p1") Sample.ledger_p1).
Proof.
  apply (X12_history_answer_is_a_list_of_members (go := Sample.runtime)
           (Catalog.answering [] [Catalog.km_created; Catalog.km_deleted]) "p1"
           Sample.ledger_p1 [Catalog.km_created; Catalog.km_deleted]).
  reflexivity.
Defined.

Lemma X13_witness :
  getHistoryForProduct (go := Sample.runtime)
    (Catalog.breaking "iterator closed" [] [Catalog.km_created]) ["p1"] Sample.ledger_p1 =
    (shim.Error "iterator closed", shim.record_access (shim.HistoryQuery "p1") Sample.ledger_p1).
Proof.
  apply (X13_history_error_is_passed_on (go := Sample.runtime)
           (Catalog.breaking "iterator closed" [] [Catalog.km_created]) "p1"
           Sample.ledger_p1 "iterator closed").
  right. exists [Catalog.km_created], []. reflexivity.
Defined.

Lemma X14_witness :
  initProduct (go := Sample.runtime) Sample.stub0
    ["p1"; "Bolt"; "Steel"; "Alice"] Sample.empty_ledger =
  initProduct (go := Sample.runtime) Sample.stub0
    ["p1"; "BOLT"; "steel"; "aLICE"] Sample.empty_ledger.
Proof.
  apply (X14_init_ignores_case (go := Sample.runtime) Sample.stub0 Sample.empty_ledger
           "p1" "Bolt" "Steel" "Alice" "BOLT" "steel" "aLICE");
    solve [discriminate | reflexivity].
Defined.

Lemma X15_witness :
  let stub := Sample.reliable "initProduct" ["p2"; "Nut"; "Brass"; "Bob"] in
  shim.WorldState (snd (Invoke (go := Sample.runtime) stub Sample.ledger_p1)) !! "p1" =
  shim.WorldState Sample.ledger_p1 !! "p1".
Proof.
  cbv zeta.
  apply (X15_invocation_leaves_other_products_alone (go := Sample.runtime)
           (Sample.reliable "initProduct" ["p2"; "Nut"; "Brass"; "Bob"])
           Sample.ledger_p1 "p1").
  - discriminate.
  - reflexivity.
Defined.

Lemma X18_witness :
  let i := Driver.nth_invocation Catalog.env in
  (Driver.product_id (i (3 + 4)%N) = Driver.product_id (i 3%N) /\
   Driver.product_owner (i (3 + 4)%N) = Driver.product_owner (i 3%N)) /\
  Driver.product_type (i (3 + 10)%N) = Driver.product_type (i 3%N) /\
  (Driver.product_id (i (3 + 20)%N) = Driver.product_id (i 3%N) /\
   Driver.product_type (i (3 + 20)%N) = Driver.product_type (i 3%N) /\
   Driver.product_owner (i (3 + 20)%N) = Driver.product_owner (i 3%N)).
Proof.
  apply (X18_invocations_repeat Catalog.env 3).
  - vm_compute; discriminate.
  - vm_compute; discriminate.
Defined.

Lemma X19_witness :
  product_name (Driver.nth_invocation Catalog.env 1) <>
    product_name (Driver.nth_invocation Catalog.env 5).
Proof.
  apply (X19_product_names_differ Catalog.env 1 5).
  - vm_compute; discriminate.
  - vm_compute; discriminate.
  - vm_compute; discriminate.
  - vm_compute; discriminate.
  - discriminate.
Defined.

Lemma X20_witness :
  exists l2,
    initProduct (go := Sample.runtime) Sample.stub0
      ["1w2"; "product_5_4242"; "60"; "Bob"]
      (snd (initProduct (go := Sample.runtime) Sample.stub0
              ["1w2"; "product_1_4242"; "20"; "Bob"] Sample.empty_ledger)) =
      (shim.Error ("This product already exists: " +:+
                   Driver.product_id (Driver.nth_invocation Catalog.env 1)), l2) /\
    shim.WorldState l2 =
      shim.WorldState
        (snd (initProduct (go := Sample.runtime) Sample.stub0
                ["1w2"; "product_1_4242"; "20"; "Bob"] Sample.empty_ledger)).
Proof.
  apply (X20_every_fifth_call_is_refused (go := Sample.runtime) Catalog.env
           Sample.stub0 Sample.stub0 Sample.empty_ledger _ (shim.Success None) 1
           ["1w2"; "product_1_4242"; "20"; "Bob"]
           ["1w2"; "product_5_4242"; "60"; "Bob"]).
  - vm_compute; discriminate.
  - vm_compute; discriminate.
  - vm_compute; reflexivity.
  - vm_compute; reflexivity.
  - vm_compute; reflexivity.
  - reflexivity.
  - reflexivity.
Defined.
